(** * Event Hubs asynchronous producer and partition context

    A shallow embedding of

      - [azure/eventhub/aio/_producer_async.py] (class [EventHubProducer]) and
      - [azure/eventhub/aio/_eventprocessor/partition_context.py]
        (class [PartitionContext]),

    followed by the properties that the design description states about them.

    Conventions of the embedding.
      - A method is a computation in a state-and-exception monad: it takes the
        object it is called on (together with the trace of what it has done
        to its collaborators so far) and gives back either a value or the
        exception it raised, and the object as the call left it.
      - Collaborators outside these two files (the uAMQP link, the checkpoint
        store, the logger, the clock) are not executed: what the code asks of
        them is appended to a trace, and what they answer is an argument of
        the method, over which the theorems quantify.
      - Python floats holding seconds are exact rationals ([Q]).
      - Python truthiness is written out: [None], the empty string, the empty
        list and zero are false. *)

From Stdlib Require Import ZArith QArith String List Bool Lia Lqa.
From stdpp Require Import gmap strings.
Import ListNotations.

Local Open Scope string_scope.

(** ** Exceptions and results *)

(** The exception classes the two files raise themselves, the one of the
    shared base class, and a catch-all for whatever a collaborator raises
    (uAMQP errors, checkpoint store failures, ...). *)
Inductive exn : Type :=
| ValueError (msg : string)
| AttributeError (msg : string)
| OperationTimeoutError (msg : string)
| ClientClosedError (msg : string)
| ExternalError (cls msg : string).

#[global] Instance exn_eq_dec : EqDecision exn.
Proof. solve_decision. Defined.

Inductive Result (A : Type) : Type :=
| Returns (a : A)
| Raises (e : exn).
Arguments Returns {A} a.
Arguments Raises {A} e.

Definition raised {A} (r : Result A) : bool :=
  match r with Returns _ => false | Raises _ => true end.

(** State-and-exception monad: the state survives an exception, as the
    attributes of a Python object do. *)
Definition M (S A : Type) : Type := S -> Result A * S.

Definition ret {S A} (a : A) : M S A := fun s => (Returns a, s).
Definition raise {S A} (e : exn) : M S A := fun s => (Raises e, s).
Definition bind {S A B} (m : M S A) (k : A -> M S B) : M S B :=
  fun s => match m s with
           | (Returns a, s') => k a s'
           | (Raises e, s') => (Raises e, s')
           end.
Definition get {S} : M S S := fun s => (Returns s, s).
Definition modify {S} (f : S -> S) : M S unit := fun s => (Returns tt, f s).

(** [try: ... finally: ...], the shape of a [with] block: the exit action
    runs on both ways out, and an exception of the body is raised again
    after it. *)
Definition finally {S A} (body : M S A) (exit : M S unit) : M S A :=
  fun s => match body s with
           | (r, s') => match exit s' with
                        | (Returns _, s'') => (r, s'')
                        | (Raises e, s'') => (Raises e, s'')
                        end
           end.

Declare Scope monad_scope.
Delimit Scope monad_scope with monad.
Notation "x <- m ;; k" := (bind m (fun x => k))
  (at level 100, m at next level, right associativity) : monad_scope.
Notation "m ;; k" := (bind m (fun _ => k))
  (at level 100, right associativity) : monad_scope.
Local Open Scope monad_scope.

(** ** Python values *)

(** The values that end up in the dictionaries built by the source. *)
Inductive pyval : Type :=
| PyNone
| PyStr (s : string)
| PyInt (z : Z).

#[global] Instance pyval_eq_dec : EqDecision pyval.
Proof. solve_decision. Defined.

Definition py_of_str (o : option string) : pyval :=
  match o with Some s => PyStr s | None => PyNone end.
Definition py_of_int (o : option Z) : pyval :=
  match o with Some z => PyInt z | None => PyNone end.

(** [AnyStr]: a partition key is a [str] or a [bytes]. *)
Inductive pykey : Type :=
| KStr (s : string)
| KBytes (b : list Byte.byte).

#[global] Instance byte_eq_dec : EqDecision Byte.byte := Byte.byte_eq_dec.
#[global] Instance pykey_eq_dec : EqDecision pykey.
Proof. solve_decision. Defined.

(** Truthiness of an [Optional[AnyStr]]. *)
Definition key_truthy (k : option pykey) : bool :=
  match k with
  | None => false
  | Some (KStr s) => negb (String.eqb s "")
  | Some (KBytes b) => match b with [] => false | _ :: _ => true end
  end.

(** Python's [!=] between two [Optional[AnyStr]] values: a [str] never
    equals a [bytes], and [None] equals only [None]. *)
Definition key_neq (a b : option pykey) : bool :=
  negb (bool_decide (a = b)).

(** Truthiness of an [Optional[float]]. *)
Definition float_truthy (t : option Q) : bool :=
  match t with
  | None => false
  | Some q => negb (Qeq_bool q 0)
  end.

(** ** Events and batches ([azure.eventhub._common], not part of the sources)

    The declarations of [EventData] and [EventDataBatch] are outside the two
    files; they are modelled by the attributes the two files read and write. *)

(** A uAMQP message: [on_send_complete] is the completion callback, named by
    the producer whose [_on_outcome] is registered. *)
Record Message : Type := {
  payload : string;
  annotation_partition_key : option pykey;
  application_properties : list (string * string);
  on_send_complete : option string
}.

#[global] Instance Message_eq_dec : EqDecision Message.
Proof. solve_decision. Defined.

Module EventData.
(** Modelled from the spec: "EventEnvelope: opaque payload + optional
    partition-key hint + offset/sequence-number (assigned by service,
    read-only to this core)". *)
Record t : Type := {
  message : Message;
  offset : option string;
  sequence_number : option Z
}.
End EventData.

Module EventDataBatch.
(** Modelled from the spec: "EventBatch: an ordered sequence of
    EventEnvelope sharing one resolved partition key; [...] has a bound
    partition key (possibly none)". *)
Record t : Type := {
  message : Message;
  _partition_key : option pykey;
  events : list EventData.t
}.
End EventDataBatch.

#[global] Instance EventData_eq_dec : EqDecision EventData.t.
Proof. solve_decision. Defined.
#[global] Instance EventDataBatch_eq_dec : EqDecision EventDataBatch.t.
Proof. solve_decision. Defined.

(** A tracing span ([azure.core.tracing.AbstractSpan]), by its name. *)
Record Span : Type := { span_name : string; span_kind : string }.

(** The functions of this package that the two files import from modules
    outside the sources ([_utils], [_producer], [_common]).  They are
    parameters of the embedding: every theorem holds whatever they compute. *)
Class Helpers : Type := {
  get_last_enqueued_event_properties : EventData.t -> option (gmap string pyval);
  set_message_partition_key : Message -> pykey -> Message;
  trace_message : EventData.t -> option Span -> EventData.t;
  _set_partition_key : list EventData.t -> pykey -> list EventData.t;
  _set_trace_message : list EventData.t -> list EventData.t;
  _from_batch : list EventData.t -> option pykey -> Result EventDataBatch.t
}.

(** * partition_context.py *)

Module partition_context.

(** A checkpoint store is an object of the application; the context only
    holds a reference to it.  [CheckpointStore] defines neither [__bool__]
    nor [__len__], so a store object is true. *)
Record CheckpointStore : Type := { store_name : string }.

Record PartitionContext : Type := {
  fully_qualified_namespace : string;
  partition_id : string;
  eventhub_name : string;
  consumer_group : string;
  _last_received_event : option EventData.t;
  _checkpoint_store : option CheckpointStore
}.

(** What the context does to its collaborators. *)
Inductive Effect : Type :=
| StoreUpdateCheckpoint (store : CheckpointStore) (checkpoint : gmap string pyval)
| LogWarning (fmt : string) (args : list string).

Record World : Type := {
  self : PartitionContext;
  effects : list Effect
}.

Definition emit (e : Effect) : M World unit :=
  modify (fun w => {| self := self w; effects := effects w ++ [e] |}).

Definition __init__
    (fully_qualified_namespace eventhub_name consumer_group partition_id : string)
    (checkpoint_store : option CheckpointStore) : PartitionContext :=
  {| fully_qualified_namespace := fully_qualified_namespace;
     partition_id := partition_id;
     eventhub_name := eventhub_name;
     consumer_group := consumer_group;
     _last_received_event := None;
     _checkpoint_store := checkpoint_store |}.

(** The receive path (outside the sources) stores each event it hands to
    the application in [_last_received_event]. *)
Definition receive (event : EventData.t) : M World unit :=
  modify (fun w =>
    {| self := {| fully_qualified_namespace := fully_qualified_namespace (self w);
                  partition_id := partition_id (self w);
                  eventhub_name := eventhub_name (self w);
                  consumer_group := consumer_group (self w);
                  _last_received_event := Some event;
                  _checkpoint_store := _checkpoint_store (self w) |};
       effects := effects w |}).

Definition last_enqueued_event_properties `{Helpers}
  : M World (option (gmap string pyval)) :=
  w <- get ;;
  match _last_received_event (self w) with
  | Some event => ret (get_last_enqueued_event_properties event)
  | None => ret None
  end.

Definition warning_format : string :=
  "namespace %r, eventhub %r, consumer_group %r, partition_id %r " ++
  "update_checkpoint is called without checkpoint store. No checkpoint is updated.".

(** [store_reply] is what awaiting the store's [update_checkpoint] does:
    [None] when it completes, [Some e] when it raises [e]. *)
Definition update_checkpoint (store_reply : option exn) (event : EventData.t)
  : M World unit :=
  w <- get ;;
  match _checkpoint_store (self w) with
  | Some store =>
      let checkpoint : gmap string pyval :=
        <[ "fully_qualified_namespace" := PyStr (fully_qualified_namespace (self w)) ]>
        (<[ "eventhub_name" := PyStr (eventhub_name (self w)) ]>
        (<[ "consumer_group" := PyStr (consumer_group (self w)) ]>
        (<[ "partition_id" := PyStr (partition_id (self w)) ]>
        (<[ "offset" := py_of_str (EventData.offset event) ]>
        (<[ "sequence_number" := py_of_int (EventData.sequence_number event) ]>
         ∅))))) in
      emit (StoreUpdateCheckpoint store checkpoint) ;;
      match store_reply with
      | Some e => raise e
      | None => ret tt
      end
  | None =>
      emit (LogWarning warning_format
              [fully_qualified_namespace (self w); eventhub_name (self w);
               consumer_group (self w); partition_id (self w)])
  end.

(** The operations on a context: the two of the class, and the receive
    path's assignment. *)
Inductive Op : Type :=
| OpLastEnqueuedEventProperties
| OpUpdateCheckpoint (store_reply : option exn) (event : EventData.t)
| OpReceive (event : EventData.t).

Definition run_op `{Helpers} (op : Op) (w : World) : World :=
  match op with
  | OpLastEnqueuedEventProperties => snd (last_enqueued_event_properties w)
  | OpUpdateCheckpoint reply event => snd (update_checkpoint reply event w)
  | OpReceive event => snd (receive event w)
  end.

Definition run_ops `{Helpers} (ops : list Op) (w : World) : World :=
  fold_left (fun w op => run_op op w) ops w.

Definition store_writes (es : list Effect) : list (gmap string pyval) :=
  flat_map (fun e => match e with
                     | StoreUpdateCheckpoint _ c => [c]
                     | LogWarning _ _ => []
                     end) es.

Definition warnings (es : list Effect) : list Effect :=
  List.filter (fun e => match e with LogWarning _ _ => true | _ => false end) es.

(** The event of the last [OpReceive] among [ops], or [earlier] if there is
    none. *)
Definition last_received (ops : list Op) (earlier : option EventData.t)
  : option EventData.t :=
  fold_left (fun last op => match op with
                            | OpReceive event => Some event
                            | _ => last
                            end) ops earlier.

(** The keys of a checkpoint dictionary. *)
Definition checkpoint_keys : gset string :=
  {[ "fully_qualified_namespace"; "eventhub_name"; "consumer_group";
     "partition_id"; "offset"; "sequence_number" ]}.

End partition_context.


(** * _producer_async.py *)

Module producer_async.

(** [uamqp.constants.MessageSendResult]. *)
Inductive MessageSendResult : Type := Ok | Error | Timeout.

#[global] Instance MessageSendResult_eq_dec : EqDecision MessageSendResult.
Proof. solve_decision. Defined.

(** [self._client._config], as far as the producer reads it. *)
Record Config : Type := {
  max_retries : nat;
  network_tracing : bool;
  user_agent : option string
}.

(** The link handle, [uamqp.SendClientAsync]: the keyword arguments
    [_create_handler] gives it that matter here, and the list of messages it
    holds unacknowledged.  The constructor stores [msg_timeout] in
    [_msg_timeout], the attribute [_set_msg_timeout] overwrites. *)
Record SendClientAsync : Type := {
  target : string;
  auth : string;
  debug : bool;
  _msg_timeout : Q;
  idle_timeout : option Q;
  keep_alive_interval : option Q;
  client_name : string;
  link_properties : Z;
  pending_messages : list Message
}.

Record EventHubProducer : Type := {
  running : bool;
  closed : bool;
  _max_message_size_on_link : option Z;
  _client : Config;
  _target : string;
  _partition : option string;
  _keep_alive : option Q;
  _auto_reconnect : bool;
  _timeout : Q;
  _idle_timeout : option Q;
  _retry_policy : nat;
  _reconnect_backoff : Z;
  _name : string;
  _unsent_events : list Message;
  _error : option exn;
  _handler : option SendClientAsync;
  _outcome : option MessageSendResult;
  _condition : option exn;
  _link_properties : Z
}.

(** What the producer does to its collaborators.  [OnLink h] goes ahead of
    [QueueMessage] and of [WaitAsync]: it is the link handle the call is
    made on, as the call finds it (its message timeout is the one in force
    for the call). *)
Inductive Event : Type :=
| LockAcquire
| LockRelease
| SpanCreate (s : Span)
| SpanEnter (s : Span)
| SpanExit (s : Span)
| AddSpanRequestAttributes (s : Span)
| LinkOpen (h : SendClientAsync)
| LinkClose
| OnLink (h : SendClientAsync)
| QueueMessage (ms : list Message)
| WaitAsync
| LogInfo (fmt : string) (name : string) (error : exn).

(** The events that reach the transport link. *)
Definition is_transport (e : Event) : bool :=
  match e with
  | LinkOpen _ | LinkClose | QueueMessage _ | WaitAsync => true
  | _ => false
  end.

Definition transport_events (t : list Event) : list Event :=
  List.filter is_transport t.

(** The messages handed to [queue_message], call by call. *)
Definition queued (t : list Event) : list (list Message) :=
  flat_map (fun e => match e with QueueMessage ms => [ms] | _ => [] end) t.

Record World : Type := {
  self : EventHubProducer;
  trace : list Event
}.

(** ** Attribute assignment *)

Definition set_running (v : bool) (p : EventHubProducer) : EventHubProducer :=
  {| running := v; closed := closed p;
     _max_message_size_on_link := _max_message_size_on_link p;
     _client := _client p; _target := _target p; _partition := _partition p;
     _keep_alive := _keep_alive p; _auto_reconnect := _auto_reconnect p;
     _timeout := _timeout p; _idle_timeout := _idle_timeout p;
     _retry_policy := _retry_policy p; _reconnect_backoff := _reconnect_backoff p;
     _name := _name p; _unsent_events := _unsent_events p; _error := _error p;
     _handler := _handler p; _outcome := _outcome p; _condition := _condition p;
     _link_properties := _link_properties p |}.

Definition set_closed (v : bool) (p : EventHubProducer) : EventHubProducer :=
  {| running := running p; closed := v;
     _max_message_size_on_link := _max_message_size_on_link p;
     _client := _client p; _target := _target p; _partition := _partition p;
     _keep_alive := _keep_alive p; _auto_reconnect := _auto_reconnect p;
     _timeout := _timeout p; _idle_timeout := _idle_timeout p;
     _retry_policy := _retry_policy p; _reconnect_backoff := _reconnect_backoff p;
     _name := _name p; _unsent_events := _unsent_events p; _error := _error p;
     _handler := _handler p; _outcome := _outcome p; _condition := _condition p;
     _link_properties := _link_properties p |}.

Definition set_unsent_events (v : list Message) (p : EventHubProducer) : EventHubProducer :=
  {| running := running p; closed := closed p;
     _max_message_size_on_link := _max_message_size_on_link p;
     _client := _client p; _target := _target p; _partition := _partition p;
     _keep_alive := _keep_alive p; _auto_reconnect := _auto_reconnect p;
     _timeout := _timeout p; _idle_timeout := _idle_timeout p;
     _retry_policy := _retry_policy p; _reconnect_backoff := _reconnect_backoff p;
     _name := _name p; _unsent_events := v; _error := _error p;
     _handler := _handler p; _outcome := _outcome p; _condition := _condition p;
     _link_properties := _link_properties p |}.

Definition set_handler (v : option SendClientAsync) (p : EventHubProducer) : EventHubProducer :=
  {| running := running p; closed := closed p;
     _max_message_size_on_link := _max_message_size_on_link p;
     _client := _client p; _target := _target p; _partition := _partition p;
     _keep_alive := _keep_alive p; _auto_reconnect := _auto_reconnect p;
     _timeout := _timeout p; _idle_timeout := _idle_timeout p;
     _retry_policy := _retry_policy p; _reconnect_backoff := _reconnect_backoff p;
     _name := _name p; _unsent_events := _unsent_events p; _error := _error p;
     _handler := v; _outcome := _outcome p; _condition := _condition p;
     _link_properties := _link_properties p |}.

Definition set_outcome (v : option MessageSendResult) (p : EventHubProducer) : EventHubProducer :=
  {| running := running p; closed := closed p;
     _max_message_size_on_link := _max_message_size_on_link p;
     _client := _client p; _target := _target p; _partition := _partition p;
     _keep_alive := _keep_alive p; _auto_reconnect := _auto_reconnect p;
     _timeout := _timeout p; _idle_timeout := _idle_timeout p;
     _retry_policy := _retry_policy p; _reconnect_backoff := _reconnect_backoff p;
     _name := _name p; _unsent_events := _unsent_events p; _error := _error p;
     _handler := _handler p; _outcome := v; _condition := _condition p;
     _link_properties := _link_properties p |}.

Definition set_condition (v : option exn) (p : EventHubProducer) : EventHubProducer :=
  {| running := running p; closed := closed p;
     _max_message_size_on_link := _max_message_size_on_link p;
     _client := _client p; _target := _target p; _partition := _partition p;
     _keep_alive := _keep_alive p; _auto_reconnect := _auto_reconnect p;
     _timeout := _timeout p; _idle_timeout := _idle_timeout p;
     _retry_policy := _retry_policy p; _reconnect_backoff := _reconnect_backoff p;
     _name := _name p; _unsent_events := _unsent_events p; _error := _error p;
     _handler := _handler p; _outcome := _outcome p; _condition := v;
     _link_properties := _link_properties p |}.

Definition set_msg_timeout (v : Q) (h : SendClientAsync) : SendClientAsync :=
  {| target := target h; auth := auth h; debug := debug h; _msg_timeout := v;
     idle_timeout := idle_timeout h; keep_alive_interval := keep_alive_interval h;
     client_name := client_name h; link_properties := link_properties h;
     pending_messages := pending_messages h |}.

Definition set_pending_messages (v : list Message) (h : SendClientAsync) : SendClientAsync :=
  {| target := target h; auth := auth h; debug := debug h;
     _msg_timeout := _msg_timeout h;
     idle_timeout := idle_timeout h; keep_alive_interval := keep_alive_interval h;
     client_name := client_name h; link_properties := link_properties h;
     pending_messages := v |}.

Definition update (f : EventHubProducer -> EventHubProducer) : M World unit :=
  modify (fun w => {| self := f (self w); trace := trace w |}).

Definition emit (e : Event) : M World unit :=
  modify (fun w => {| self := self w; trace := trace w ++ [e] |}).

(** ** What the collaborators answer *)

(** What one [wait_async] does: the completion callbacks it delivers to this
    producer, in order, the messages the link still holds unacknowledged when
    it ends, and the exception it ends with, if any. *)
Record WaitReply : Type := {
  outcomes : list (MessageSendResult * option exn);
  still_pending : list Message;
  wait_error : option exn
}.

(** What the world answers during one attempt of [_send_event_data]. *)
Record Env : Type := {
  credential : string;          (* the token the client creates for a new link *)
  open_reply : option exn;      (* opening a new link: [None] when it becomes ready *)
  now : Q;                      (* [time.time()] *)
  wait_reply : WaitReply
}.

(** The part of the base class [ConsumerProducerMixin]
    ([_client_base_async.py], outside the sources) that is left a parameter:
    the retry executor, which is given the operation (indexed by the attempt,
    to pick the world's answers of that attempt) and the caller's timeout;
    and the state a link handle is in once it is torn down. *)
Class Mixin : Type := {
  _do_retryable_operation :
    (nat -> option Q -> option exn -> M World unit) -> option Q -> M World unit;
  torn_down : SendClientAsync -> option SendClientAsync
}.

(** ** __init__ *)

Record Kwargs : Type := {
  kw_partition : option string;
  kw_send_timeout : option Q;
  kw_keep_alive : option Q;
  kw_auto_reconnect : option bool;
  kw_idle_timeout : option Q
}.

(** Python's [int()] on a float: truncation towards zero. *)
Definition py_int (q : Q) : Z := Z.quot (Qnum q) (Z.pos (Qden q)).

Definition str_truthy (s : option string) : bool :=
  match s with
  | None => false
  | Some s => negb (String.eqb s "")
  end.

Definition __init__ (client : Config) (target : string) (kwargs : Kwargs)
    (uuid4 : string) : EventHubProducer :=
  let partition := kw_partition kwargs in
  let send_timeout := default 60%Q (kw_send_timeout kwargs) in
  let keep_alive := kw_keep_alive kwargs in
  let auto_reconnect := default true (kw_auto_reconnect kwargs) in
  let idle_timeout := kw_idle_timeout kwargs in
  let name := "EHProducer-" ++ uuid4 in
  {| running := false;
     closed := false;
     _max_message_size_on_link := None;
     _client := client;
     _target := if str_truthy partition
                then target ++ "/Partitions/" ++ default "" partition
                else target;
     _partition := partition;
     _keep_alive := keep_alive;
     _auto_reconnect := auto_reconnect;
     _timeout := send_timeout;
     _idle_timeout := if float_truthy idle_timeout
                      then option_map (fun t => t * 1000)%Q idle_timeout
                      else None;
     _retry_policy := max_retries client;
     _reconnect_backoff := 1;
     _name := if str_truthy partition
              then name ++ "-partition" ++ default "" partition
              else name;
     _unsent_events := [];
     _error := None;
     _handler := None;
     _outcome := None;
     _condition := None;
     _link_properties := py_int (send_timeout * 1000) |}.

(** ** Methods *)

(** The call [SendClientAsync(self._target, auth=auth, ...)]. *)
Definition new_handler (p : EventHubProducer) (auth : string) : SendClientAsync :=
  {| target := _target p;
     auth := auth;
     debug := network_tracing (_client p);
     _msg_timeout := (_timeout p * 1000)%Q;
     idle_timeout := _idle_timeout p;
     keep_alive_interval := _keep_alive p;
     client_name := _name p;
     link_properties := _link_properties p;
     pending_messages := [] |}.

Definition _create_handler (auth : string) : M World unit :=
  update (fun p => set_handler (Some (new_handler p auth)) p).

(** [self._handler.<attr>]: an attribute of [None] raises. *)
Definition handler (attr : string) : M World SendClientAsync :=
  w <- get ;;
  match _handler (self w) with
  | Some h => ret h
  | None => raise (AttributeError ("'NoneType' object has no attribute '" ++ attr ++ "'"))
  end.

(** Modelled from the spec: the base class's [_open], "openIfNeeded(): no-op
    if a link exists and is open; otherwise constructs a new link bound to
    the target address [...]. Side effect: sets running = true. [...] link
    construction failures propagate unmodified to the caller". *)
Definition _open (env : Env) : M World unit :=
  w <- get ;;
  if running (self w) && bool_decide (_handler (self w) <> None) then ret tt
  else
    _create_handler (credential env) ;;
    h <- handler "open_async" ;;
    emit (LinkOpen h) ;;
    match open_reply env with
    | Some e => raise e
    | None => update (set_running true)
    end.

(** Modelled from the spec: the base class's [_check_closed], "closed == true
    implies no further sends accepted". *)
Definition _check_closed : M World unit :=
  w <- get ;;
  if closed (self w)
  then raise (ClientClosedError
                (_name (self w) ++ " has been closed. Please create a new one to handle event data."))
  else ret tt.

(** Modelled from the spec: the base class's [close], "idempotent; if
    already closed, no-op; otherwise tears down the link and sets closed =
    true, running = false". *)
Definition mixin_close `{Mixin} : M World unit :=
  w <- get ;;
  if closed (self w) then ret tt
  else
    match _handler (self w) with
    | Some h => emit LinkClose ;; update (set_handler (torn_down h))
    | None => ret tt
    end ;;
    update (set_closed true) ;;
    update (set_running false).

(** [async with self._lock]. *)
Definition with_lock {A} (body : M World A) : M World A :=
  emit LockAcquire ;; finally body (emit LockRelease).

(** [with child]. *)
Definition with_span {A} (child : Span) (body : M World A) : M World A :=
  emit (SpanEnter child) ;; finally body (emit (SpanExit child)).

Definition _open_with_retry `{Mixin} (env : nat -> Env) : M World unit :=
  _do_retryable_operation (fun attempt _ _ => _open (env attempt)) None.

Definition timed_out : exn := OperationTimeoutError "Send operation timed out".

Definition _set_msg_timeout (time_time : Q) (timeout_time : option Q)
    (last_exception : option exn) : M World unit :=
  if negb (float_truthy timeout_time) then ret tt
  else
    let remaining_time := (default 0 timeout_time - time_time)%Q in
    if Qle_bool remaining_time 0 then
      let error := match last_exception with
                   | Some e => e
                   | None => timed_out
                   end in
      w <- get ;;
      emit (LogInfo "%r send operation timed out. (%r)" (_name (self w)) error) ;;
      raise error
    else
      h <- handler "_msg_timeout" ;;
      update (set_handler (Some (set_msg_timeout (remaining_time * 1000)%Q h))).

Definition _on_outcome (outcome : MessageSendResult) (condition : option exn)
  : M World unit :=
  update (set_outcome (Some outcome)) ;;
  update (set_condition condition).

(** [self._handler.queue_message], called with the unpacked list: the link
    takes the messages at the end of the ones it holds. *)
Definition queue_message (messages : list Message) : M World unit :=
  h <- handler "queue_message" ;;
  emit (OnLink h) ;;
  emit (QueueMessage messages) ;;
  update (set_handler (Some (set_pending_messages (pending_messages h ++ messages) h))).

Fixpoint deliver (cbs : list (MessageSendResult * option exn)) : M World unit :=
  match cbs with
  | [] => ret tt
  | (outcome, condition) :: rest => _on_outcome outcome condition ;; deliver rest
  end.

(** [await self._handler.wait_async()]. *)
Definition wait_async (reply : WaitReply) : M World unit :=
  h <- handler "wait_async" ;;
  emit (OnLink h) ;;
  emit WaitAsync ;;
  deliver (outcomes reply) ;;
  update (set_handler (Some (set_pending_messages (still_pending reply) h))) ;;
  match wait_error reply with
  | Some e => raise e
  | None => ret tt
  end.

Definition _send_event_data (env : Env) (timeout_time : option Q)
    (last_exception : option exn) : M World unit :=
  w <- get ;;
  match _unsent_events (self w) with
  | [] => ret tt
  | _ :: _ =>
      _open env ;;
      _set_msg_timeout (now env) timeout_time last_exception ;;
      w <- get ;;
      queue_message (_unsent_events (self w)) ;;
      wait_async (wait_reply env) ;;
      h <- handler "pending_messages" ;;
      update (set_unsent_events (pending_messages h)) ;;
      w <- get ;;
      if negb (bool_decide (_outcome (self w) = Some Ok)) then
        (if bool_decide (_outcome (self w) = Some Timeout)
         then update (set_condition (Some timed_out))
         else ret tt) ;;
        w <- get ;;
        match _condition (self w) with
        | Some condition => raise condition
        | None => ret tt
        end
      else ret tt
  end.

Definition _send_event_data_with_retry `{Mixin} (env : nat -> Env)
    (timeout : option Q) : M World unit :=
  _do_retryable_operation (fun attempt => _send_event_data (env attempt)) timeout.

(** The argument of [send]: one event, a batch, or an iterable of events. *)
Inductive EventInput : Type :=
| AnEvent (e : EventData.t)
| ABatch (b : EventDataBatch.t)
| Events (l : list EventData.t).

Inductive Wrapped : Type :=
| WrappedEvent (e : EventData.t)
| WrappedBatch (b : EventDataBatch.t).

Definition wrapped_message (x : Wrapped) : Message :=
  match x with
  | WrappedEvent e => EventData.message e
  | WrappedBatch b => EventDataBatch.message b
  end.

Definition set_on_send_complete (callback : string) (m : Message) : Message :=
  {| payload := payload m;
     annotation_partition_key := annotation_partition_key m;
     application_properties := application_properties m;
     on_send_complete := Some callback |}.

(** [wrapper_event_data.message.on_send_complete = self._on_outcome]. *)
Definition register_callback (callback : string) (x : Wrapped) : Wrapped :=
  match x with
  | WrappedEvent e =>
      WrappedEvent {| EventData.message := set_on_send_complete callback (EventData.message e);
                      EventData.offset := EventData.offset e;
                      EventData.sequence_number := EventData.sequence_number e |}
  | WrappedBatch b =>
      WrappedBatch {| EventDataBatch.message :=
                        set_on_send_complete callback (EventDataBatch.message b);
                      EventDataBatch._partition_key := EventDataBatch._partition_key b;
                      EventDataBatch.events := EventDataBatch.events b |}
  end.

Definition key_mismatch : exn :=
  ValueError "The partition_key does not match the one of the EventDataBatch".

Definition _wrap_eventdata `{Helpers} (event_data : EventInput)
    (span : option Span) (partition_key : option pykey) : M World Wrapped :=
  wrapper_event_data <-
    match event_data with
    | AnEvent event_data =>
        let event_data :=
          match partition_key with
          | Some key =>
              if key_truthy partition_key
              then {| EventData.message :=
                        set_message_partition_key (EventData.message event_data) key;
                      EventData.offset := EventData.offset event_data;
                      EventData.sequence_number := EventData.sequence_number event_data |}
              else event_data
          | None => event_data
          end in
        ret (WrappedEvent (trace_message event_data span))
    | ABatch event_data =>
        if key_truthy partition_key
           && key_neq partition_key (EventDataBatch._partition_key event_data)
        then raise key_mismatch
        else ret (WrappedBatch event_data)
    | Events event_data =>
        let event_data :=
          match partition_key with
          | Some key =>
              if key_truthy partition_key
              then _set_partition_key event_data key
              else event_data
          | None => event_data
          end in
        let event_data := _set_trace_message event_data in
        match _from_batch event_data partition_key with
        | Returns batch => ret (WrappedBatch batch)
        | Raises e => raise e
        end
    end ;;
  w <- get ;;
  ret (register_callback (_name (self w)) wrapper_event_data).

(** [send]: [tracing_implementation] is what
    [settings.tracing_implementation()] answers, a span type or nothing. *)
Definition send `{Helpers} `{Mixin} (tracing_implementation : option string)
    (env : nat -> Env) (event_data : EventInput) (partition_key : option pykey)
    (timeout : option Q) : M World unit :=
  with_lock (
    child <-
      match tracing_implementation with
      | Some _ =>
          let child := {| span_name := "Azure.EventHubs.send"; span_kind := "CLIENT" |} in
          emit (SpanCreate child) ;; ret (Some child)
      | None => ret None
      end ;;
    _check_closed ;;
    wrapper_event_data <- _wrap_eventdata event_data child partition_key ;;
    update (set_unsent_events [wrapped_message wrapper_event_data]) ;;
    match tracing_implementation, child with
    | Some _, Some child =>
        with_span child (
          emit (AddSpanRequestAttributes child) ;;
          _send_event_data_with_retry env timeout)
    | _, _ => _send_event_data_with_retry env timeout
    end).

Definition close `{Mixin} : M World unit :=
  with_lock mixin_close.

(** ** Vocabulary of the statements *)

(** A producer with nothing on its trace yet: the trace a method leaves on it
    is the trace of that one call. *)
Definition fresh (p : EventHubProducer) : World := {| self := p; trace := [] |}.

(** The producer once the callbacks [cbs] have been delivered to it. *)
Definition record (p : EventHubProducer) (cb : MessageSendResult * option exn)
  : EventHubProducer :=
  set_condition (snd cb) (set_outcome (Some (fst cb)) p).

Definition recorded (cbs : list (MessageSendResult * option exn))
    (p : EventHubProducer) : EventHubProducer :=
  fold_left record cbs p.

(** The link's message timeout and the messages it holds, if there is a link. *)
Definition link_msg_timeout (p : EventHubProducer) : option Q :=
  option_map _msg_timeout (_handler p).

Definition link_pending (p : EventHubProducer) : option (list Message) :=
  option_map pending_messages (_handler p).

(** The deadline has passed by the clock of this attempt
    ([remaining_time <= 0.0]). *)
Definition expired (env : Env) (timeout_time : option Q) : bool :=
  Qle_bool (default 0%Q timeout_time - now env) 0.

Definition is_timeout_error (e : exn) : bool :=
  match e with OperationTimeoutError _ => true | _ => false end.

(** The two halves of a non-empty attempt, around the flush wait: lines
    129-131 of [_send_event_data] (open, set the timeout, enqueue) and lines
    133-138 (take over the pending messages, judge the outcome). *)
Definition prepare (env : Env) (timeout_time : option Q)
    (last_exception : option exn) : M World unit :=
  _open env ;;
  _set_msg_timeout (now env) timeout_time last_exception ;;
  w <- get ;;
  queue_message (_unsent_events (self w)).

Definition settle : M World unit :=
  h <- handler "pending_messages" ;;
  update (set_unsent_events (pending_messages h)) ;;
  w <- get ;;
  if negb (bool_decide (_outcome (self w) = Some Ok)) then
    (if bool_decide (_outcome (self w) = Some Timeout)
     then update (set_condition (Some timed_out))
     else ret tt) ;;
    w <- get ;;
    match _condition (self w) with
    | Some condition => raise condition
    | None => ret tt
    end
  else ret tt.

(** What [send] does to the tracing hook before it wraps its argument. *)
Definition span_events (tracing_implementation : option string) : list Event :=
  match tracing_implementation with
  | Some _ => [SpanCreate {| span_name := "Azure.EventHubs.send"; span_kind := "CLIENT" |}]
  | None => []
  end.

(** The calls an attempt makes on a link it holds: enqueue, wait, close. *)
Definition link_calls (t : list Event) : list Event :=
  List.filter (fun e => match e with
                        | QueueMessage _ | WaitAsync | LinkClose => true
                        | _ => false
                        end) t.

(** The calls on the link's queue together with the link each call is made
    on. *)
Definition calls_on_link (t : list Event) : list Event :=
  List.filter (fun e => match e with
                        | OnLink _ | QueueMessage _ | WaitAsync => true
                        | _ => false
                        end) t.

(** The deadline checks that failed, as the log lines they leave. *)
Definition timeout_logs (t : list Event) : list Event :=
  List.filter (fun e => match e with LogInfo _ _ _ => true | _ => false end) t.

(** The span [send] creates when a tracing implementation is set, and what
    entering and leaving its [with] block leaves on the trace. *)
Definition child_span (tracing_implementation : option string) : option Span :=
  option_map (fun _ => {| span_name := "Azure.EventHubs.send"; span_kind := "CLIENT" |})
    tracing_implementation.

Definition span_entry (tracing_implementation : option string) : list Event :=
  match child_span tracing_implementation with
  | Some child => [SpanEnter child; AddSpanRequestAttributes child]
  | None => []
  end.

Definition span_exit (tracing_implementation : option string) : list Event :=
  match child_span tracing_implementation with
  | Some child => [SpanExit child]
  | None => []
  end.

(** The outcome handling as the design description has it: once the flush
    wait has returned with a recorded outcome other than [Ok], a [Timeout]
    raises the timeout error, any other outcome raises the recorded
    condition, and without a condition something is raised all the same. *)
Definition raises_on_every_non_ok (env : Env) (timeout_time : option Q)
    (last_exception : option exn) (p : EventHubProducer) : Prop :=
  let run := _send_event_data env timeout_time last_exception (fresh p) in
  let after_wait := recorded (outcomes (wait_reply env)) p in
  In WaitAsync (trace (snd run)) ->
  wait_error (wait_reply env) = None ->
  _outcome after_wait <> Some Ok ->
  (_outcome after_wait = Some Timeout -> fst run = Raises timed_out) /\
  (_outcome after_wait <> Some Timeout ->
     match _condition after_wait with
     | Some condition => fst run = Raises condition
     | None => raised (fst run) = true
     end).

(** The redelivery as the design description has it: after every flush wait
    the unsent list is the link's pending list, and the next attempt hands
    the link those pending messages or nothing. *)
Definition resent_as_described (env : Env) (timeout_time : option Q)
    (last_exception : option exn) (p : EventHubProducer) : Prop :=
  let run := _send_event_data env timeout_time last_exception (fresh p) in
  let p' := self (snd run) in
  In WaitAsync (trace (snd run)) ->
  link_pending p' = Some (_unsent_events p') /\
  forall env' timeout_time' last_exception',
    let retry := _send_event_data env' timeout_time' last_exception' (fresh p') in
    queued (trace (snd retry)) = [] \/
    link_pending p' = Some (concat (queued (trace (snd retry)))).

(** The deadline check as the design description has it: past the deadline
    the attempt fails with a timeout error and neither enqueues nor waits;
    before it, the link's message timeout is the remaining budget. *)
Definition deadline_as_described (env : Env) (timeout_time : option Q)
    (last_exception : option exn) (p : EventHubProducer) : Prop :=
  let run := _send_event_data env timeout_time last_exception (fresh p) in
  float_truthy timeout_time = true ->
  _unsent_events p <> [] ->
  fst (_open env (fresh p)) = Returns tt ->
  (expired env timeout_time = true ->
     (exists e, fst run = Raises e /\ is_timeout_error e = true) /\
     queued (trace (snd run)) = [] /\
     ~ In WaitAsync (trace (snd run))) /\
  (expired env timeout_time = false ->
     exists t, link_msg_timeout (self (snd run)) = Some t /\
               (t == default 0 timeout_time - now env)%Q).

End producer_async.


(** * Sample data *)

Definition plain_message (body : string) : Message :=
  {| payload := body;
     annotation_partition_key := None;
     application_properties := [];
     on_send_complete := None |}.

Definition event_100_42 : EventData.t :=
  {| EventData.message := plain_message "event";
     EventData.offset := Some "100";
     EventData.sequence_number := Some 42%Z |}.

Definition sample_store : partition_context.CheckpointStore :=
  {| partition_context.store_name := "blob" |}.

(** The record the design description gives for the checkpoint of
    [event_100_42] on partition "0" of hub1. *)
Definition described_record : gmap string pyval :=
  <[ "namespace" := PyStr "ns1" ]>
  (<[ "eventhub_name" := PyStr "hub1" ]>
  (<[ "consumer_group" := PyStr "$Default" ]>
  (<[ "partition_id" := PyStr "0" ]>
  (<[ "offset" := PyStr "100" ]>
  (<[ "sequence_number" := PyInt 42 ]>
   ∅))))).

(** The record the code builds for it. *)
Definition written_record : gmap string pyval :=
  <[ "fully_qualified_namespace" := PyStr "ns1" ]>
  (<[ "eventhub_name" := PyStr "hub1" ]>
  (<[ "consumer_group" := PyStr "$Default" ]>
  (<[ "partition_id" := PyStr "0" ]>
  (<[ "offset" := PyStr "100" ]>
  (<[ "sequence_number" := PyInt 42 ]>
   ∅))))).

(** Helpers that leave their argument alone, to run the model on examples. *)
Definition plain_helpers : Helpers :=
  {| get_last_enqueued_event_properties := fun _ => None;
     set_message_partition_key := fun m key =>
       {| payload := payload m;
          annotation_partition_key := Some key;
          application_properties := application_properties m;
          on_send_complete := on_send_complete m |};
     trace_message := fun e _ => e;
     _set_partition_key := fun l _ => l;
     _set_trace_message := fun l => l;
     _from_batch := fun l key =>
       Returns {| EventDataBatch.message := plain_message "batch";
                  EventDataBatch._partition_key := key;
                  EventDataBatch.events := l |} |}.


(** Sample producer, link answers and batches. *)

Definition sample_config : producer_async.Config :=
  {| producer_async.max_retries := 3;
     producer_async.network_tracing := false;
     producer_async.user_agent := None |}.

Definition sample_kwargs : producer_async.Kwargs :=
  {| producer_async.kw_partition := Some "0";
     producer_async.kw_send_timeout := None;
     producer_async.kw_keep_alive := None;
     producer_async.kw_auto_reconnect := None;
     producer_async.kw_idle_timeout := None |}.

Definition sample_producer : producer_async.EventHubProducer :=
  producer_async.__init__ sample_config "amqps://ns1/hub1" sample_kwargs "0001".

(** The sample producer as [send] leaves it before the first attempt. *)
Definition loaded_producer : producer_async.EventHubProducer :=
  producer_async.set_unsent_events [plain_message "m1"] sample_producer.

Definition connection_lost : exn := ExternalError "ConnectionLostError" "link detached".

Definition sample_env (time_time : Q) (reply : producer_async.WaitReply)
  : producer_async.Env :=
  {| producer_async.credential := "token";
     producer_async.open_reply := None;
     producer_async.now := time_time;
     producer_async.wait_reply := reply |}.

(** The link settles everything and reports success. *)
Definition acknowledged : producer_async.WaitReply :=
  {| producer_async.outcomes := [(producer_async.Ok, None)];
     producer_async.still_pending := [];
     producer_async.wait_error := None |}.

(** The link reports a failed delivery and gives no condition. *)
Definition failed_without_condition : producer_async.WaitReply :=
  {| producer_async.outcomes := [(producer_async.Error, None)];
     producer_async.still_pending := [];
     producer_async.wait_error := None |}.

(** The link reports a failed delivery and keeps the message pending. *)
Definition failed_and_pending : producer_async.WaitReply :=
  {| producer_async.outcomes := [(producer_async.Error, Some connection_lost)];
     producer_async.still_pending := [plain_message "m1"];
     producer_async.wait_error := None |}.

(** The link reports a failed delivery and holds nothing any more. *)
Definition failed_and_settled : producer_async.WaitReply :=
  {| producer_async.outcomes := [(producer_async.Error, Some connection_lost)];
     producer_async.still_pending := [];
     producer_async.wait_error := None |}.

(** The link acknowledges the message, and the wait ends with an exception. *)
Definition acknowledged_then_lost : producer_async.WaitReply :=
  {| producer_async.outcomes := [(producer_async.Ok, None)];
     producer_async.still_pending := [];
     producer_async.wait_error := Some connection_lost |}.

(** The link cannot be opened. *)
Definition unreachable_env (time_time : Q) : producer_async.Env :=
  {| producer_async.credential := "token";
     producer_async.open_reply := Some connection_lost;
     producer_async.now := time_time;
     producer_async.wait_reply := acknowledged |}.

Definition batch_A : EventDataBatch.t :=
  {| EventDataBatch.message := plain_message "batch";
     EventDataBatch._partition_key := Some (KStr "A");
     EventDataBatch.events := [] |}.

Definition unbound_batch : EventDataBatch.t :=
  {| EventDataBatch.message := plain_message "batch";
     EventDataBatch._partition_key := None;
     EventDataBatch.events := [] |}.

(** A retry executor that makes one attempt, without a deadline, and a
    teardown that keeps the handle. *)
Definition single_attempt : producer_async.Mixin :=
  {| producer_async._do_retryable_operation := fun operation _ => operation 0%nat None None;
     producer_async.torn_down := fun h => Some h |}.


(** * Properties of partition_context.py *)

Local Open Scope list_scope.

Section partition_context_properties.
Import partition_context.
Context `{Helpers}.

Lemma update_checkpoint_with_store store reply event ns pid hub cg last es :
  update_checkpoint reply event
    {| self := {| fully_qualified_namespace := ns; partition_id := pid;
                  eventhub_name := hub; consumer_group := cg;
                  _last_received_event := last;
                  _checkpoint_store := Some store |};
       effects := es |}
  = (match reply with Some e => Raises e | None => Returns tt end,
     {| self := {| fully_qualified_namespace := ns; partition_id := pid;
                   eventhub_name := hub; consumer_group := cg;
                   _last_received_event := last;
                   _checkpoint_store := Some store |};
        effects := es ++
          [StoreUpdateCheckpoint store
             (<[ "fully_qualified_namespace" := PyStr ns ]>
             (<[ "eventhub_name" := PyStr hub ]>
             (<[ "consumer_group" := PyStr cg ]>
             (<[ "partition_id" := PyStr pid ]>
             (<[ "offset" := py_of_str (EventData.offset event) ]>
             (<[ "sequence_number" := py_of_int (EventData.sequence_number event) ]>
              ∅))))))] |}).
Proof. destruct reply; reflexivity. Qed.

(** Each operation hands the context on with its identity and its store
    reference as they were. *)
Lemma run_op_frame op w :
  let w' := run_op op w in
  fully_qualified_namespace (self w') = fully_qualified_namespace (self w) /\
  eventhub_name (self w') = eventhub_name (self w) /\
  consumer_group (self w') = consumer_group (self w) /\
  partition_id (self w') = partition_id (self w) /\
  _checkpoint_store (self w') = _checkpoint_store (self w).
Proof.
  destruct w as [ctx es]; destruct op as [| reply event | event]; cbn.
  - unfold last_enqueued_event_properties, bind, get; cbn.
    destruct (_last_received_event ctx); cbn; auto 6.
  - unfold update_checkpoint, bind, get; cbn.
    destruct (_checkpoint_store ctx) eqn:Hstore; cbn; [destruct reply|]; cbn; auto 6.
  - auto 6.
Qed.

Lemma run_ops_frame ops : forall w,
  let w' := run_ops ops w in
  fully_qualified_namespace (self w') = fully_qualified_namespace (self w) /\
  eventhub_name (self w') = eventhub_name (self w) /\
  consumer_group (self w') = consumer_group (self w) /\
  partition_id (self w') = partition_id (self w) /\
  _checkpoint_store (self w') = _checkpoint_store (self w).
Proof.
  induction ops as [| op ops IH]; intros w; cbn.
  - auto 6.
  - destruct (IH (run_op op w)) as (H1 & H2 & H3 & H4 & H5).
    destruct (run_op_frame op w) as (G1 & G2 & G3 & G4 & G5).
    cbn in *. unfold run_ops in *.
    rewrite H1, H2, H3, H4, H5. auto 6.
Qed.

(** C3, as the description states it, fails: the record handed to the store
    has no key "namespace"; the namespace is under
    "fully_qualified_namespace". *)
Lemma checkpoint_record_not_as_described :
  let w := {| self := __init__ "ns1" "hub1" "$Default" "0" (Some sample_store);
              effects := [] |} in
  store_writes (effects (snd (update_checkpoint None event_100_42 w)))
    = [written_record] /\
  written_record !! "namespace" = None /\
  described_record !! "namespace" = Some (PyStr "ns1") /\
  store_writes (effects (snd (update_checkpoint None event_100_42 w)))
    <> [described_record].
Proof.
  assert (Hw : written_record !! "namespace" = None) by (vm_compute; reflexivity).
  assert (Hd : described_record !! "namespace" = Some (PyStr "ns1"))
    by (vm_compute; reflexivity).
  cbn zeta. unfold __init__. rewrite update_checkpoint_with_store.
  assert (Hrun : store_writes
            (effects (snd (Returns tt,
               {| self := {| fully_qualified_namespace := "ns1"; partition_id := "0";
                             eventhub_name := "hub1"; consumer_group := "$Default";
                             _last_received_event := None;
                             _checkpoint_store := Some sample_store |};
                  effects := [] ++ [StoreUpdateCheckpoint sample_store written_record] |})))
          = [written_record]) by reflexivity.
  change (py_of_str (EventData.offset event_100_42)) with (PyStr "100").
  change (py_of_int (EventData.sequence_number event_100_42)) with (PyInt 42).
  fold written_record. rewrite Hrun.
  repeat split; try assumption.
  intros Heq. assert (E : written_record = described_record) by congruence.
  rewrite E in Hw. congruence.
Qed.

(** C3, amended: on a context with a checkpoint store and the identity
    (ns1, hub1, $Default, 0), [update_checkpoint] of an event with offset
    "100" and sequence number 42 makes exactly one call of the store, with
    the record [{fully_qualified_namespace: "ns1", eventhub_name: "hub1",
    consumer_group: "$Default", partition_id: "0", offset: "100",
    sequence_number: 42}], whatever the store answers. *)
Theorem update_checkpoint_one_store_call :
  forall store reply last message es,
    let ctx := {| fully_qualified_namespace := "ns1"; partition_id := "0";
                  eventhub_name := "hub1"; consumer_group := "$Default";
                  _last_received_event := last;
                  _checkpoint_store := Some store |} in
    let event := {| EventData.message := message;
                    EventData.offset := Some "100";
                    EventData.sequence_number := Some 42%Z |} in
    effects (snd (update_checkpoint reply event {| self := ctx; effects := es |}))
      = es ++ [StoreUpdateCheckpoint store written_record].
Proof.
  intros. subst ctx event. rewrite update_checkpoint_with_store. reflexivity.
Qed.

(** C6: on a context without a checkpoint store, [update_checkpoint] returns
    normally, hands nothing to a store, and logs one warning; the context is
    left as it was. *)
Theorem update_checkpoint_without_store :
  forall ns pid hub cg last reply event es,
    let ctx := {| fully_qualified_namespace := ns; partition_id := pid;
                  eventhub_name := hub; consumer_group := cg;
                  _last_received_event := last;
                  _checkpoint_store := None |} in
    let run := update_checkpoint reply event {| self := ctx; effects := es |} in
    fst run = Returns tt /\
    self (snd run) = ctx /\
    effects (snd run) = es ++ [LogWarning warning_format [ns; hub; cg; pid]] /\
    store_writes (effects (snd run)) = store_writes es /\
    warnings (effects (snd run))
      = warnings es ++ [LogWarning warning_format [ns; hub; cg; pid]].
Proof.
  intros. subst run ctx. cbn.
  repeat split.
  - unfold store_writes. rewrite flat_map_app. cbn. apply app_nil_r.
  - unfold warnings. rewrite List.filter_app. reflexivity.
Qed.

(** C8: whatever sequence of operations follows the construction (reads of
    [last_enqueued_event_properties], checkpoint updates with any answer of
    the store, events stored by the receive path), the four identity fields
    are the constructor's arguments. *)
Theorem identity_fields_never_change :
  forall ns hub cg pid store ops,
    let w := run_ops ops {| self := __init__ ns hub cg pid store; effects := [] |} in
    fully_qualified_namespace (self w) = ns /\
    eventhub_name (self w) = hub /\
    consumer_group (self w) = cg /\
    partition_id (self w) = pid.
Proof.
  intros.
  destruct (run_ops_frame ops {| self := __init__ ns hub cg pid store; effects := [] |})
    as (H1 & H2 & H3 & H4 & _).
  subst w. rewrite H1, H2, H3, H4. cbn. auto.
Qed.

(** ** Further properties of the checkpoint update *)

(** X1: whatever the identity of the context and whatever the event, the
    record handed to the store has the six keys and no other, the four
    identity fields under their names, and the event's offset and sequence
    number ([None] when the event has none). *)
Theorem checkpoint_record_fields :
  forall store reply event ns pid hub cg last es,
    let ctx := {| fully_qualified_namespace := ns; partition_id := pid;
                  eventhub_name := hub; consumer_group := cg;
                  _last_received_event := last;
                  _checkpoint_store := Some store |} in
    exists checkpoint : gmap string pyval,
      effects (snd (update_checkpoint reply event {| self := ctx; effects := es |}))
        = es ++ [StoreUpdateCheckpoint store checkpoint] /\
      dom checkpoint = checkpoint_keys /\
      checkpoint !! "fully_qualified_namespace" = Some (PyStr ns) /\
      checkpoint !! "eventhub_name" = Some (PyStr hub) /\
      checkpoint !! "consumer_group" = Some (PyStr cg) /\
      checkpoint !! "partition_id" = Some (PyStr pid) /\
      checkpoint !! "offset" = Some (py_of_str (EventData.offset event)) /\
      checkpoint !! "sequence_number" = Some (py_of_int (EventData.sequence_number event)).
Proof.
  intros. subst ctx. rewrite update_checkpoint_with_store. cbn [snd effects].
  eexists. split; [reflexivity |].
  split.
  { unfold checkpoint_keys. rewrite !dom_insert_L, dom_empty_L. set_solver. }
  repeat split; simplify_map_eq; reflexivity.
Qed.

(** X2: [update_checkpoint] raises exactly when there is a store and the
    store raises, and then it raises the store's exception; the context is
    never changed. *)
Theorem update_checkpoint_raises_only_the_store_error :
  forall ctx reply event es e,
    let run := update_checkpoint reply event {| self := ctx; effects := es |} in
    (fst run = Raises e <-> _checkpoint_store ctx <> None /\ reply = Some e) /\
    self (snd run) = ctx.
Proof.
  intros ctx reply event es e. unfold update_checkpoint, bind, get, emit, modify, ret, raise.
  cbn. destruct (_checkpoint_store ctx) as [store |] eqn:Hstore; cbn.
  - destruct reply as [e' |]; cbn; split; try reflexivity.
    + split.
      * intros [= ->]. split; [discriminate | reflexivity].
      * intros [_ [= ->]]. reflexivity.
    + split; [discriminate | intros [_ Hr]; discriminate Hr].
  - split; [| reflexivity].
    split; [discriminate | intros [Hne _]; congruence].
Qed.

Lemma run_ops_last_received ops : forall w,
  _last_received_event (self (run_ops ops w))
    = last_received ops (_last_received_event (self w)).
Proof.
  induction ops as [| op ops IH]; intros w; [reflexivity |].
  cbn. unfold run_ops in IH. rewrite IH. f_equal.
  destruct w as [ctx es]; destruct op as [| reply event | event]; cbn.
  - unfold last_enqueued_event_properties, bind, get; cbn.
    destruct (_last_received_event ctx) eqn:Hlast; cbn; congruence.
  - unfold update_checkpoint, bind, get; cbn.
    destruct (_checkpoint_store ctx); cbn; [destruct reply |]; reflexivity.
  - reflexivity.
Qed.

(** X3: after any sequence of operations on a new context,
    [last_enqueued_event_properties] is what the helper derives from the
    event the receive path stored last, and [None] as long as none was
    stored; checkpoint updates and earlier reads play no part, and the read
    itself changes nothing and calls nobody. *)
Theorem last_enqueued_event_properties_follows_the_last_receive :
  forall ns hub cg pid store ops,
    let w := run_ops ops {| self := __init__ ns hub cg pid store; effects := [] |} in
    last_enqueued_event_properties w
      = (Returns (match last_received ops None with
                  | Some event => get_last_enqueued_event_properties event
                  | None => None
                  end), w).
Proof.
  intros. unfold last_enqueued_event_properties, bind, get, ret.
  subst w. rewrite run_ops_last_received. cbn [__init__ _last_received_event self].
  destruct (last_received ops None); reflexivity.
Qed.

End partition_context_properties.


(** * Properties of _producer_async.py *)

Section producer_properties.
Import producer_async.
Context `{Helpers} `{Mixin}.

(** ** The pieces of an attempt *)

Lemma deliver_spec cbs : forall w,
  deliver cbs w = (Returns tt, {| self := recorded cbs (self w); trace := trace w |}).
Proof.
  induction cbs as [| [outcome condition] cbs IH]; intros [p t]; cbn.
  - reflexivity.
  - unfold bind, _on_outcome, update, modify, bind. cbn. rewrite IH. reflexivity.
Qed.

(** Delivering callbacks touches the outcome and the condition only, and
    what it leaves there does not depend on the other attributes. *)
Lemma recorded_frame cbs : forall p,
  running (recorded cbs p) = running p /\
  closed (recorded cbs p) = closed p /\
  _handler (recorded cbs p) = _handler p /\
  _unsent_events (recorded cbs p) = _unsent_events p.
Proof.
  induction cbs as [| cb cbs IH]; intros p; cbn; [auto |].
  destruct (IH (record p cb)) as (H1 & H2 & H3 & H4).
  unfold recorded in *. rewrite H1, H2, H3, H4. auto.
Qed.

Lemma recorded_outcome cbs : forall p q,
  _outcome p = _outcome q -> _condition p = _condition q ->
  _outcome (recorded cbs p) = _outcome (recorded cbs q) /\
  _condition (recorded cbs p) = _condition (recorded cbs q).
Proof.
  induction cbs as [| cb cbs IH]; intros p q Ho Hc; cbn; [auto |].
  apply IH; reflexivity.
Qed.

Lemma send_event_data_stages env timeout_time last_exception w :
  _send_event_data env timeout_time last_exception w =
  match _unsent_events (self w) with
  | [] => (Returns tt, w)
  | _ :: _ =>
      match prepare env timeout_time last_exception w with
      | (Returns _, w3) =>
          match wait_async (wait_reply env) w3 with
          | (Returns _, w4) => settle w4
          | (Raises e, w4) => (Raises e, w4)
          end
      | (Raises e, w3) => (Raises e, w3)
      end
  end.
Proof.
  unfold _send_event_data, prepare, settle.
  generalize (_open env) (_set_msg_timeout (now env) timeout_time last_exception)
    (wait_async (wait_reply env)) (handler "pending_messages") queue_message.
  intros o t wa hd q. unfold bind, get.
  destruct (_unsent_events (self w)); [reflexivity |].
  destruct (o w) as [[[] | e] w1]; [| reflexivity].
  destruct (t w1) as [[[] | e] w2]; [| reflexivity].
  destruct (q (_unsent_events (self w2)) w2) as [[[] | e] w3]; [| reflexivity].
  destruct (wa w3) as [[[] | e] w4]; reflexivity.
Qed.

(** Case analysis on the next [match] of the goal whose scrutinee is itself
    free of matches. *)
Ltac step :=
  match goal with
  | |- context [match ?x with _ => _ end] =>
      lazymatch x with
      | context [match _ with _ => _ end] => fail
      | _ => destruct x eqn:?
      end
  end.

Ltac run_prepare :=
  unfold prepare, _open, _set_msg_timeout, queue_message, _create_handler, handler,
    expired, bind, get, ret, raise, update, emit, modify, fresh;
  cbn;
  repeat (step; cbn in * ).

Ltac not_in_trace :=
  let Hin := fresh "Hin" in
  intros Hin; cbn in Hin;
  repeat match type of Hin with
         | _ \/ _ => destruct Hin as [Hin | Hin]; [discriminate Hin |]
         end;
  exact Hin.

(** A path the hypotheses rule out. *)
Ltac absurd_path :=
  exfalso;
  repeat match goal with
         | H : _ && false = true |- _ => rewrite andb_false_r in H
         | Ht : float_truthy ?t = _, H : negb (float_truthy ?t) = _ |- _ =>
             rewrite Ht in H; cbn in H
         end;
  congruence.

(** What the first half of an attempt leaves behind: it never waits, it
    leaves outcome, condition and unsent list alone, and when it returns it
    has enqueued the unsent list, once, on a link whose message timeout is
    the remaining budget in milliseconds if a deadline is set. *)
Lemma prepare_spec env timeout_time last_exception p r w3 :
  prepare env timeout_time last_exception (fresh p) = (r, w3) ->
  ~ In WaitAsync (trace w3) /\
  _outcome (self w3) = _outcome p /\
  _condition (self w3) = _condition p /\
  _unsent_events (self w3) = _unsent_events p /\
  match r with
  | Returns _ =>
      queued (trace w3) = [_unsent_events p] /\
      exists h, _handler (self w3) = Some h /\
        (float_truthy timeout_time = true ->
           expired env timeout_time = false /\
           _msg_timeout h = ((default 0 timeout_time - now env) * 1000)%Q)
  | Raises _ => queued (trace w3) = []
  end.
Proof.
  run_prepare.
  all: intros [= <- <-]; cbn.
  all: repeat split; try reflexivity; try not_in_trace.
  all: eexists; split; [reflexivity |]; intros Ht.
  all: try (split; reflexivity).
  all: absurd_path.
Qed.

(** The first half after a link open that returns: the deadline check
    decides. *)
Lemma prepare_after_open env timeout_time last_exception p :
  fst (_open env (fresh p)) = Returns tt ->
  float_truthy timeout_time = true ->
  fst (prepare env timeout_time last_exception (fresh p)) =
    if expired env timeout_time
    then Raises (default timed_out last_exception)
    else Returns tt.
Proof.
  intros Hopen Ht. revert Hopen.
  run_prepare.
  all: try (intros _; reflexivity).
  all: try (intros ?; discriminate).
  all: intros _; absurd_path.
Qed.

Lemma prepare_without_deadline env timeout_time last_exception p :
  fst (_open env (fresh p)) = Returns tt ->
  float_truthy timeout_time = false ->
  fst (prepare env timeout_time last_exception (fresh p)) = Returns tt.
Proof.
  intros Hopen Ht. revert Hopen.
  run_prepare.
  all: try (intros _; reflexivity).
  all: try (intros ?; discriminate).
  all: intros _; absurd_path.
Qed.

Lemma wait_async_spec reply w h :
  _handler (self w) = Some h ->
  wait_async reply w =
    (match wait_error reply with Some e => Raises e | None => Returns tt end,
     {| self := set_handler (Some (set_pending_messages (still_pending reply) h))
                  (recorded (outcomes reply) (self w));
        trace := trace w ++ [OnLink h; WaitAsync] |}).
Proof.
  intros Hh. unfold wait_async, handler, bind, get, emit, update, modify.
  cbn. rewrite Hh. cbn. rewrite deliver_spec. cbn. rewrite <- app_assoc. cbn.
  destruct (wait_error reply); reflexivity.
Qed.

(** What the second half of an attempt does: it takes over the link's
    pending list and judges the recorded outcome. *)
Lemma settle_spec w h :
  _handler (self w) = Some h ->
  let run := settle w in
  trace (snd run) = trace w /\
  _unsent_events (self (snd run)) = pending_messages h /\
  _handler (self (snd run)) = Some h /\
  _outcome (self (snd run)) = _outcome (self w) /\
  match _outcome (self w) with
  | Some Ok => fst run = Returns tt
  | Some Timeout => fst run = Raises timed_out
  | _ => fst run = match _condition (self w) with
                   | Some condition => Raises condition
                   | None => Returns tt
                   end
  end.
Proof.
  intros Hh. unfold settle, handler, bind, get, update, modify, ret, raise.
  destruct w as [q t]. cbn in *. rewrite Hh. cbn.
  destruct (_outcome q) as [[| |] |] eqn:Ho; repeat case_bool_decide; try congruence; cbn.
  all: rewrite ?Ho.
  all: try (repeat split; assumption || reflexivity).
  all: destruct (_condition q); cbn; rewrite ?Ho; repeat split; assumption || reflexivity.
Qed.

(** An attempt whose flush wait was issued and returned: it ends with the
    second half, run on a producer that holds the callbacks' outcome and a
    link with the pending list the wait left. *)
Lemma flushed_run env timeout_time last_exception p :
  let run := _send_event_data env timeout_time last_exception (fresh p) in
  In WaitAsync (trace (snd run)) ->
  wait_error (wait_reply env) = None ->
  exists w4 h,
    run = settle w4 /\
    _handler (self w4) = Some h /\
    pending_messages h = still_pending (wait_reply env) /\
    _outcome (self w4) = _outcome (recorded (outcomes (wait_reply env)) p) /\
    _condition (self w4) = _condition (recorded (outcomes (wait_reply env)) p) /\
    queued (trace w4) = [_unsent_events p].
Proof.
  intros run Hin Hwait. subst run. revert Hin.
  rewrite send_event_data_stages. cbn.
  destruct (_unsent_events p) as [| m l] eqn:Hunsent; [cbn; tauto |].
  destruct (prepare env timeout_time last_exception (fresh p)) as [r w3] eqn:Hprep.
  destruct (prepare_spec _ _ _ _ _ _ Hprep) as (Hnowait & Ho & Hc & Hu & Hr).
  destruct r as [[] | e]; [| cbn; tauto].
  destruct Hr as (Hq & h & Hh & _).
  rewrite (wait_async_spec _ _ _ Hh), Hwait. intros _.
  eexists; eexists. split; [reflexivity |]. cbn.
  destruct (recorded_outcome (outcomes (wait_reply env)) (self w3) p Ho Hc) as [Ho' Hc'].
  repeat split; try assumption.
  unfold queued in *. rewrite flat_map_app, Hq, Hunsent. reflexivity.
Qed.

(** An attempt hands the link its unsent list, as one [queue_message] call,
    or nothing; it hands it over whenever there is something unsent, the
    link open returns and the deadline has not passed. *)
Lemma attempt_queues_unsent env timeout_time last_exception q :
  let run := _send_event_data env timeout_time last_exception (fresh q) in
  (queued (trace (snd run)) = [] \/ queued (trace (snd run)) = [_unsent_events q]) /\
  (_unsent_events q <> [] ->
   fst (_open env (fresh q)) = Returns tt ->
   (float_truthy timeout_time = true -> expired env timeout_time = false) ->
   queued (trace (snd run)) = [_unsent_events q]).
Proof.
  intros run. subst run. rewrite send_event_data_stages. cbn [self fresh].
  destruct (_unsent_events q) as [| m l] eqn:Hunsent.
  { split; [left; reflexivity | congruence]. }
  destruct (prepare env timeout_time last_exception (fresh q)) as [r w3] eqn:Hprep.
  destruct (prepare_spec _ _ _ _ _ _ Hprep) as (_ & _ & _ & _ & Hr).
  assert (Hret : fst (_open env (fresh q)) = Returns tt ->
                 (float_truthy timeout_time = true -> expired env timeout_time = false) ->
                 r = Returns tt).
  { intros Hopen Hdeadline.
    destruct (float_truthy timeout_time) eqn:Ht.
    - pose proof (prepare_after_open env timeout_time last_exception q Hopen Ht) as E.
      rewrite Hprep, (Hdeadline eq_refl) in E. exact E.
    - pose proof (prepare_without_deadline env timeout_time last_exception q Hopen Ht) as E.
      rewrite Hprep in E. exact E. }
  destruct r as [[] | e].
  - destruct Hr as (Hq & h & Hh & _).
    rewrite (wait_async_spec _ _ _ Hh).
    assert (Hq4 : queued (trace w3 ++ [OnLink h; WaitAsync]) = [m :: l]).
    { unfold queued in *. rewrite flat_map_app, Hq, Hunsent. reflexivity. }
    destruct (wait_error (wait_reply env)); cbn [fst snd trace].
    + split; [right; exact Hq4 | intros; exact Hq4].
    + match goal with
      | |- context [settle ?w] =>
          destruct (settle_spec w _ eq_refl) as (Htrace & _)
      end.
      cbn [trace] in Htrace. rewrite Htrace.
      split; [right; exact Hq4 | intros; exact Hq4].
  - cbn [fst snd]. split; [left; exact Hr |].
    intros _ Hopen Hdeadline. discriminate (Hret Hopen Hdeadline).
Qed.

(** ** The outcome of an attempt *)

(** C2, amended: once the flush wait of an attempt has returned with a
    recorded outcome other than [Ok], a [Timeout] outcome raises the
    operation-timeout error, and any other outcome raises the recorded
    condition if there is one; without a recorded condition the attempt
    returns normally. *)
Theorem non_ok_outcome_after_flush :
  forall env timeout_time last_exception p,
    let run := _send_event_data env timeout_time last_exception (fresh p) in
    let after_wait := recorded (outcomes (wait_reply env)) p in
    In WaitAsync (trace (snd run)) ->
    wait_error (wait_reply env) = None ->
    _outcome after_wait <> Some Ok ->
    (_outcome after_wait = Some Timeout -> fst run = Raises timed_out) /\
    (_outcome after_wait <> Some Timeout ->
       fst run = match _condition after_wait with
                 | Some condition => Raises condition
                 | None => Returns tt
                 end).
Proof.
  intros env timeout_time last_exception p run after_wait Hin Hwait Hnok.
  destruct (flushed_run env timeout_time last_exception p Hin Hwait)
    as (w4 & h & Hrun & Hh & _ & Ho & Hc & _).
  destruct (settle_spec w4 h Hh) as (_ & _ & _ & _ & Hverdict).
  fold run in Hrun. rewrite Hrun. subst after_wait.
  rewrite <- Ho, <- Hc in *.
  destruct (_outcome (self w4)) as [[| |] |]; split; intros; congruence.
Qed.

(** ** The deadline of an attempt *)

(** The first half of an attempt, when it returns: the one call it has made
    on the link's queue is the enqueue of the unsent list, on a link that
    carries the remaining budget as its message timeout if a deadline is
    set, and the link it leaves differs from that one by the pending list
    only. *)
Lemma prepare_calls_on_link env timeout_time last_exception p w3 :
  prepare env timeout_time last_exception (fresh p) = (Returns tt, w3) ->
  exists h1,
    calls_on_link (trace w3) = [OnLink h1; QueueMessage (_unsent_events p)] /\
    _handler (self w3)
      = Some (set_pending_messages (pending_messages h1 ++ _unsent_events p) h1) /\
    (float_truthy timeout_time = true ->
     _msg_timeout h1 = ((default 0 timeout_time - now env) * 1000)%Q).
Proof.
  run_prepare.
  all: try discriminate.
  all: intros [= <-]; cbn.
  all: eexists; split; [reflexivity |]; split; [reflexivity |]; intros Ht.
  all: try reflexivity.
  all: absurd_path.
Qed.

Lemma calls_on_link_app t1 t2 :
  calls_on_link (t1 ++ t2) = calls_on_link t1 ++ calls_on_link t2.
Proof. apply List.filter_app. Qed.

(** C4, amended: in an attempt with a deadline that has something unsent and
    whose link open returns, if the remaining budget (deadline minus now) is
    at most zero the attempt raises at once, the last observed error itself
    if there is one and an operation-timeout error otherwise, and it neither
    enqueues nor waits; otherwise it sets the link's message timeout to the
    remaining budget in milliseconds, 1000 times deadline minus now, before
    it enqueues and waits: the enqueue and the wait are both made on a link
    that carries this timeout, and the link still carries it when the
    attempt ends. *)
Theorem deadline_check :
  forall env timeout_time last_exception p,
    let run := _send_event_data env timeout_time last_exception (fresh p) in
    let budget := ((default 0 timeout_time - now env) * 1000)%Q in
    float_truthy timeout_time = true ->
    _unsent_events p <> [] ->
    fst (_open env (fresh p)) = Returns tt ->
    (expired env timeout_time = true ->
       fst run = Raises (default timed_out last_exception) /\
       queued (trace (snd run)) = [] /\
       ~ In WaitAsync (trace (snd run)) /\
       _unsent_events (self (snd run)) = _unsent_events p) /\
    (expired env timeout_time = false ->
       queued (trace (snd run)) = [_unsent_events p] /\
       In WaitAsync (trace (snd run)) /\
       (exists h1 h2,
          calls_on_link (trace (snd run))
            = [OnLink h1; QueueMessage (_unsent_events p); OnLink h2; WaitAsync] /\
          _msg_timeout h1 = budget /\
          _msg_timeout h2 = budget) /\
       link_msg_timeout (self (snd run)) = Some budget).
Proof.
  intros env timeout_time last_exception p run budget Ht Hunsent Hopen.
  pose proof (prepare_after_open env timeout_time last_exception p Hopen Ht) as Hfst.
  subst run. rewrite send_event_data_stages. cbn [self fresh].
  destruct (_unsent_events p) as [| m l] eqn:Hu; [congruence |].
  destruct (prepare env timeout_time last_exception (fresh p)) as [r w3] eqn:Hprep.
  destruct (prepare_spec _ _ _ _ _ _ Hprep) as (Hnowait & _ & _ & Hu3 & Hr).
  cbn [fst] in Hfst.
  split; intros Hexp; rewrite Hexp in Hfst; subst r.
  - cbn [fst snd]. rewrite Hu3, Hu. auto.
  - destruct Hr as (Hq & h & Hh & Hbudget).
    destruct (Hbudget Ht) as [_ Hmt].
    destruct (prepare_calls_on_link _ _ _ _ _ Hprep) as (h1 & Hcalls & Hh1 & Hmt1).
    specialize (Hmt1 Ht).
    assert (Hh13 : _msg_timeout h = _msg_timeout h1).
    { rewrite Hh in Hh1. injection Hh1 as ->. reflexivity. }
    rewrite (wait_async_spec _ _ _ Hh).
    assert (Hq4 : queued (trace w3 ++ [OnLink h; WaitAsync]) = [m :: l]).
    { unfold queued in *. rewrite flat_map_app, Hq, Hu. reflexivity. }
    assert (Hin4 : In WaitAsync (trace w3 ++ [OnLink h; WaitAsync])).
    { apply in_or_app. right. right. left. reflexivity. }
    assert (Hcalls4 : exists h1 h2,
               calls_on_link (trace w3 ++ [OnLink h; WaitAsync])
                 = [OnLink h1; QueueMessage (m :: l); OnLink h2; WaitAsync] /\
               _msg_timeout h1 = budget /\ _msg_timeout h2 = budget).
    { exists h1, h. rewrite calls_on_link_app, Hcalls, Hu. cbn.
      repeat split; [exact Hmt1 | rewrite Hh13; exact Hmt1]. }
    destruct (wait_error (wait_reply env)); cbn [fst snd trace self].
    + repeat split; try assumption.
      unfold link_msg_timeout. cbn. rewrite Hmt. reflexivity.
    + match goal with
      | |- context [settle ?w] =>
          destruct (settle_spec w _ eq_refl) as (Htrace & _ & Hh' & _)
      end.
      cbn [trace] in Htrace. rewrite Htrace.
      repeat split; try assumption.
      unfold link_msg_timeout. rewrite Hh'. cbn. rewrite Hmt. reflexivity.
Qed.

(** ** Redelivery *)

(** An attempt whose flush wait was issued: the first half returned, and the
    attempt ends with the wait's exception or with the second half. *)
Lemma waited_run env timeout_time last_exception p :
  let run := _send_event_data env timeout_time last_exception (fresh p) in
  In WaitAsync (trace (snd run)) ->
  exists w3 h,
    _unsent_events p <> [] /\
    prepare env timeout_time last_exception (fresh p) = (Returns tt, w3) /\
    _handler (self w3) = Some h /\
    let w4 := {| self := set_handler
                           (Some (set_pending_messages (still_pending (wait_reply env)) h))
                           (recorded (outcomes (wait_reply env)) (self w3));
                 trace := trace w3 ++ [OnLink h; WaitAsync] |} in
    run = match wait_error (wait_reply env) with
          | Some e => (Raises e, w4)
          | None => settle w4
          end.
Proof.
  intros run Hin. subst run. revert Hin.
  rewrite send_event_data_stages. cbn [self fresh].
  destruct (_unsent_events p) as [| m l] eqn:Hunsent; [cbn; tauto |].
  destruct (prepare env timeout_time last_exception (fresh p)) as [r w3] eqn:Hprep.
  destruct (prepare_spec _ _ _ _ _ _ Hprep) as (Hnowait & _ & _ & _ & Hr).
  destruct r as [[] | e]; [| cbn; tauto].
  destruct Hr as (_ & h & Hh & _).
  rewrite (wait_async_spec _ _ _ Hh). intros _.
  exists w3, h. repeat split; try assumption; try discriminate.
  cbn zeta. destruct (wait_error (wait_reply env)); reflexivity.
Qed.

(** C5, amended: after a flush wait that returns, the unsent list is the
    list of messages the link holds pending; after a flush wait that raises,
    the unsent list is left as it was queued, whatever the link holds
    pending.  In both cases the next attempt, whatever the world answers,
    hands the link the unsent list and nothing else: one [queue_message]
    call with those messages in their order, and none when the attempt stops
    before it enqueues.  It does enqueue whenever there is something unsent,
    the link open returns and the deadline has not passed. *)
Theorem unsent_list_after_the_flush_wait :
  forall env timeout_time last_exception p,
    let run := _send_event_data env timeout_time last_exception (fresh p) in
    let p' := self (snd run) in
    In WaitAsync (trace (snd run)) ->
    link_pending p' = Some (still_pending (wait_reply env)) /\
    (wait_error (wait_reply env) = None ->
     _unsent_events p' = still_pending (wait_reply env)) /\
    (wait_error (wait_reply env) <> None ->
     _unsent_events p' = _unsent_events p) /\
    forall env' timeout_time' last_exception',
      let retry := _send_event_data env' timeout_time' last_exception' (fresh p') in
      (queued (trace (snd retry)) = [] \/
       queued (trace (snd retry)) = [_unsent_events p']) /\
      (_unsent_events p' <> [] ->
       fst (_open env' (fresh p')) = Returns tt ->
       (float_truthy timeout_time' = true -> expired env' timeout_time' = false) ->
       queued (trace (snd retry)) = [_unsent_events p']).
Proof.
  intros env timeout_time last_exception p run p' Hin.
  destruct (waited_run env timeout_time last_exception p Hin)
    as (w3 & h & _ & Hprep & Hh & Hrun).
  cbn zeta in Hrun. fold run in Hrun.
  destruct (prepare_spec _ _ _ _ _ _ Hprep) as (_ & _ & _ & Hu & _).
  destruct (recorded_frame (outcomes (wait_reply env)) (self w3)) as (_ & _ & _ & Hu').
  assert (Hstate : link_pending p' = Some (still_pending (wait_reply env)) /\
                   (wait_error (wait_reply env) = None ->
                    _unsent_events p' = still_pending (wait_reply env)) /\
                   (wait_error (wait_reply env) <> None ->
                    _unsent_events p' = _unsent_events p)).
  { subst p'. destruct (wait_error (wait_reply env)) as [e |].
    - rewrite Hrun. cbn. repeat split; [discriminate |].
      intros _. rewrite Hu'. exact Hu.
    - match type of Hrun with
      | _ = settle ?w =>
          destruct (settle_spec w _ eq_refl) as (_ & Hunsent & Hh' & _)
      end.
      rewrite <- Hrun in Hunsent, Hh'. cbn in Hunsent.
      unfold link_pending. rewrite Hh'. cbn.
      repeat split; [intros _; exact Hunsent | congruence]. }
  destruct Hstate as (Hlink & Hret & Hraise).
  repeat split; try assumption.
  - apply (attempt_queues_unsent env' timeout_time' last_exception' p').
  - apply (attempt_queues_unsent env' timeout_time' last_exception' p').
Qed.

(** ** Validation of the partition key *)

Lemma wrap_batch b span key w :
  _wrap_eventdata (ABatch b) span key w =
    if key_truthy key && key_neq key (EventDataBatch._partition_key b)
    then (Raises key_mismatch, w)
    else (Returns (register_callback (_name (self w)) (WrappedBatch b)), w).
Proof.
  unfold _wrap_eventdata, bind, get, ret, raise.
  destruct (key_truthy key && key_neq key (EventDataBatch._partition_key b));
    reflexivity.
Qed.

(** A [send] of a batch with a conflicting key ends before anything is
    handed to the retry executor. *)
Lemma send_rejects_batch tracing env b key timeout p :
  key_truthy key = true ->
  key_neq key (EventDataBatch._partition_key b) = true ->
  send tracing env (ABatch b) key timeout (fresh p) =
    (Raises (if closed p
             then ClientClosedError
                    (_name p ++ " has been closed. Please create a new one to handle event data.")%string
             else key_mismatch),
     {| self := p;
        trace := LockAcquire :: span_events tracing ++ [LockRelease] |}).
Proof.
  intros Htruthy Hneq.
  unfold send, with_lock, finally, _check_closed.
  unfold bind at 1 2 3 4. unfold emit at 1. unfold modify. cbn [fresh self trace].
  destruct tracing as [impl |]; cbn [span_events];
    unfold bind, emit, modify, get, ret, raise; cbn;
    destruct (closed p) eqn:Hclosed; cbn; try reflexivity;
    rewrite wrap_batch, Htruthy, Hneq; reflexivity.
Qed.

Lemma transport_events_of_rejection tracing :
  transport_events (LockAcquire :: span_events tracing ++ [LockRelease]) = [].
Proof. destruct tracing; reflexivity. Qed.

Lemma key_neq_some (A B : pykey) : B <> A -> key_neq (Some B) (Some A) = true.
Proof.
  intros Hne. unfold key_neq. rewrite bool_decide_eq_false_2; [reflexivity |].
  congruence.
Qed.

Lemma key_neq_none (K : pykey) : key_neq (Some K) None = true.
Proof. reflexivity. Qed.

(** C1: a [send] of a batch bound to key A with a non-empty key B other
    than A fails, hands nothing to the transport (no link open, no enqueue,
    no wait) and leaves the producer as it was; on a producer that has not
    been closed the failure is the [ValueError] of the key check.  (A closed
    producer is refused by the closed check, which comes first.) *)
Theorem send_rejects_conflicting_key :
  forall tracing env b A B timeout p,
    EventDataBatch._partition_key b = Some A ->
    key_truthy (Some B) = true ->
    B <> A ->
    let run := send tracing env (ABatch b) (Some B) timeout (fresh p) in
    raised (fst run) = true /\
    transport_events (trace (snd run)) = [] /\
    queued (trace (snd run)) = [] /\
    self (snd run) = p /\
    (closed p = false -> fst run = Raises key_mismatch).
Proof.
  intros tracing env b A B timeout p Hbound Htruthy Hne run.
  subst run. rewrite send_rejects_batch; [| assumption | rewrite Hbound; apply key_neq_some; assumption].
  cbn [fst snd trace self].
  repeat split.
  - apply transport_events_of_rejection.
  - destruct tracing; reflexivity.
  - intros Hclosed. rewrite Hclosed. reflexivity.
Qed.

(** C10: on a batch whose bound key is [None], every non-empty key makes
    [send] fail in the same way, with nothing handed to the transport; the
    key check raises exactly when the supplied key is true and differs from
    the bound one; and an empty string as key is passed over, whatever the
    batch is bound to: the wrapping returns the batch and the [send] is the
    [send] without a key. *)
Theorem truthy_key_conflicts_and_empty_key_is_ignored :
  forall tracing env timeout p,
    (forall b K,
        EventDataBatch._partition_key b = None ->
        key_truthy (Some K) = true ->
        let run := send tracing env (ABatch b) (Some K) timeout (fresh p) in
        raised (fst run) = true /\
        transport_events (trace (snd run)) = [] /\
        queued (trace (snd run)) = [] /\
        self (snd run) = p /\
        (closed p = false -> fst run = Raises key_mismatch)) /\
    (forall b span key,
        fst (_wrap_eventdata (ABatch b) span key (fresh p)) =
          if key_truthy key && key_neq key (EventDataBatch._partition_key b)
          then Raises key_mismatch
          else Returns (register_callback (_name p) (WrappedBatch b))) /\
    (forall b span,
        _wrap_eventdata (ABatch b) span (Some (KStr "")) (fresh p) =
          (Returns (register_callback (_name p) (WrappedBatch b)), fresh p)) /\
    (forall b,
        send tracing env (ABatch b) (Some (KStr "")) timeout (fresh p) =
        send tracing env (ABatch b) None timeout (fresh p)).
Proof.
  intros tracing env timeout p.
  split; [| split; [| split]].
  - intros b K Hunbound Htruthy run. subst run.
    rewrite send_rejects_batch;
      [| assumption | rewrite Hunbound; apply key_neq_none].
    cbn [fst snd trace self].
    repeat split.
    + apply transport_events_of_rejection.
    + destruct tracing; reflexivity.
    + intros Hclosed. rewrite Hclosed. reflexivity.
  - intros b span key. rewrite wrap_batch.
    destruct (key_truthy key && key_neq key (EventDataBatch._partition_key b));
      reflexivity.
  - intros b span. rewrite wrap_batch. reflexivity.
  - intros b. unfold send. f_equal.
Qed.

(** ** Closing *)

(** C7: a second [close] returns without an error and leaves the producer
    (its closed and running flags and its link handle among the rest) as the
    first [close] left it; it hands nothing to the transport. *)
Theorem close_is_idempotent :
  forall p,
    let once := close (fresh p) in
    let twice := close (fresh (self (snd once))) in
    fst once = Returns tt /\
    closed (self (snd once)) = true /\
    (closed p = false -> running (self (snd once)) = false) /\
    fst twice = Returns tt /\
    self (snd twice) = self (snd once) /\
    transport_events (trace (snd twice)) = [].
Proof.
  intros p.
  assert (Hclosed : forall q, closed q = true ->
            close (fresh q)
            = (Returns tt, {| self := q; trace := [LockAcquire; LockRelease] |})).
  { intros q Hq. unfold close, with_lock, finally, mixin_close, bind, emit, modify, get, ret.
    cbn. rewrite Hq. reflexivity. }
  assert (Honce : fst (close (fresh p)) = Returns tt /\
                  closed (self (snd (close (fresh p)))) = true /\
                  (closed p = false -> running (self (snd (close (fresh p)))) = false)).
  { destruct (closed p) eqn:Hc.
    - rewrite (Hclosed p Hc). cbn. repeat split; [assumption | discriminate].
    - unfold close, with_lock, finally, mixin_close, bind, emit, update, modify, get, ret.
      cbn. rewrite Hc. destruct (_handler p); cbn; auto. }
  destruct Honce as (Hret & Hc1 & Hrun).
  cbn zeta. rewrite (Hclosed _ Hc1). cbn.
  repeat split; assumption.
Qed.

(** ** Further properties of an attempt *)

Lemma prepare_link_calls env timeout_time last_exception p r w3 :
  prepare env timeout_time last_exception (fresh p) = (r, w3) ->
  link_calls (trace w3)
    = match r with
      | Returns _ => [QueueMessage (_unsent_events p)]
      | Raises _ => []
      end.
Proof.
  run_prepare.
  all: intros [= <- <-]; reflexivity.
Qed.

(** X4: once the flush wait has returned with [Ok] as the recorded outcome,
    the attempt returns normally, whatever condition is recorded and whether
    or not the link still holds messages pending: those become the unsent
    list. *)
Theorem ok_outcome_returns :
  forall env timeout_time last_exception p,
    let run := _send_event_data env timeout_time last_exception (fresh p) in
    In WaitAsync (trace (snd run)) ->
    wait_error (wait_reply env) = None ->
    _outcome (recorded (outcomes (wait_reply env)) p) = Some Ok ->
    fst run = Returns tt /\
    _unsent_events (self (snd run)) = still_pending (wait_reply env) /\
    _condition (self (snd run)) = _condition (recorded (outcomes (wait_reply env)) p).
Proof.
  intros env timeout_time last_exception p run Hin Hwait Hok.
  destruct (flushed_run env timeout_time last_exception p Hin Hwait)
    as (w4 & h & Hrun & Hh & Hpending & Ho & Hc & _).
  fold run in Hrun. rewrite Hrun. rewrite <- Ho in Hok. rewrite <- Hc.
  destruct (settle_spec w4 h Hh) as (_ & Hunsent & _ & _ & Hverdict).
  rewrite Hok in Hverdict. rewrite <- Hpending.
  repeat split; try assumption.
  unfold settle, handler, bind, get, update, modify, ret.
  destruct w4 as [q t]. cbn in *. rewrite Hh. cbn. rewrite Hok.
  rewrite bool_decide_eq_true_2 by reflexivity. reflexivity.
Qed.

(** X5: when the flush wait ends with an exception, the attempt raises that
    exception and leaves the unsent list as it was queued; the pending list
    of the link is not taken over, and the outcome delivered before the
    exception stays recorded.  The next attempt therefore hands the link the
    whole list again. *)
Theorem wait_failure_keeps_the_unsent_list :
  forall env timeout_time last_exception p e,
    let run := _send_event_data env timeout_time last_exception (fresh p) in
    let p' := self (snd run) in
    In WaitAsync (trace (snd run)) ->
    wait_error (wait_reply env) = Some e ->
    fst run = Raises e /\
    _unsent_events p' = _unsent_events p /\
    link_pending p' = Some (still_pending (wait_reply env)) /\
    _outcome p' = _outcome (recorded (outcomes (wait_reply env)) p) /\
    forall env' timeout_time' last_exception',
      let retry := _send_event_data env' timeout_time' last_exception' (fresh p') in
      queued (trace (snd retry)) = [] \/
      queued (trace (snd retry)) = [_unsent_events p].
Proof.
  intros env timeout_time last_exception p e run p' Hin Hwait.
  destruct (waited_run env timeout_time last_exception p Hin)
    as (w3 & h & _ & Hprep & Hh & Hrun).
  cbn zeta in Hrun. rewrite Hwait in Hrun. fold run in Hrun.
  destruct (prepare_spec _ _ _ _ _ _ Hprep) as (_ & Ho & Hc & Hu & _).
  destruct (recorded_frame (outcomes (wait_reply env)) (self w3)) as (_ & _ & _ & Hu').
  destruct (recorded_outcome (outcomes (wait_reply env)) (self w3) p Ho Hc) as [Ho' _].
  assert (Hunsent : _unsent_events p' = _unsent_events p).
  { subst p'. rewrite Hrun. cbn. rewrite Hu'. exact Hu. }
  subst p'. repeat split.
  - rewrite Hrun. reflexivity.
  - exact Hunsent.
  - rewrite Hrun. reflexivity.
  - rewrite Hrun. cbn. exact Ho'.
  - intros env' timeout_time' last_exception' retry.
    destruct (attempt_queues_unsent env' timeout_time' last_exception' (self (snd run)))
      as [Hq _].
    fold retry in Hq. rewrite Hunsent in Hq. exact Hq.
Qed.

(** X6: when the flush wait has returned and the link holds nothing pending,
    every later attempt returns normally without a single call or change,
    whatever the first attempt's verdict was, whatever the deadline and the
    clock: a delivery that failed with nothing left pending is not tried
    again. *)
Theorem nothing_pending_nothing_retried :
  forall env timeout_time last_exception p,
    let run := _send_event_data env timeout_time last_exception (fresh p) in
    let p' := self (snd run) in
    In WaitAsync (trace (snd run)) ->
    wait_error (wait_reply env) = None ->
    still_pending (wait_reply env) = [] ->
    forall env' timeout_time' last_exception',
      _send_event_data env' timeout_time' last_exception' (fresh p')
        = (Returns tt, fresh p').
Proof.
  intros env timeout_time last_exception p run p' Hin Hwait Hnone env' timeout_time'
    last_exception'.
  destruct (flushed_run env timeout_time last_exception p Hin Hwait)
    as (w4 & h & Hrun & Hh & Hpending & _).
  destruct (settle_spec w4 h Hh) as (_ & Hunsent & _).
  fold run in Hrun. rewrite <- Hrun in Hunsent. fold p' in Hunsent.
  rewrite send_event_data_stages. cbn [self fresh].
  rewrite Hunsent, Hpending, Hnone. reflexivity.
Qed.

Lemma link_calls_app t1 t2 : link_calls (t1 ++ t2) = link_calls t1 ++ link_calls t2.
Proof. apply List.filter_app. Qed.

(** X7: an attempt either makes no call on the link's queue, or it hands
    over the unsent list and then waits, once each and in that order; it
    never waits without having enqueued, and never closes the link. *)
Theorem attempt_enqueues_then_waits :
  forall env timeout_time last_exception p,
    let run := _send_event_data env timeout_time last_exception (fresh p) in
    link_calls (trace (snd run)) = [] \/
    link_calls (trace (snd run)) = [QueueMessage (_unsent_events p); WaitAsync].
Proof.
  intros env timeout_time last_exception p run. subst run.
  rewrite send_event_data_stages. cbn [self fresh].
  destruct (_unsent_events p) as [| m l] eqn:Hunsent; [left; reflexivity |].
  destruct (prepare env timeout_time last_exception (fresh p)) as [r w3] eqn:Hprep.
  pose proof (prepare_link_calls _ _ _ _ _ _ Hprep) as Hcalls.
  destruct (prepare_spec _ _ _ _ _ _ Hprep) as (_ & _ & _ & _ & Hr).
  destruct r as [[] | e]; [| left; exact Hcalls].
  destruct Hr as (_ & h & Hh & _).
  rewrite (wait_async_spec _ _ _ Hh). right.
  assert (Hcalls4 : link_calls (trace w3 ++ [OnLink h; WaitAsync])
                    = [QueueMessage (m :: l); WaitAsync]).
  { rewrite link_calls_app, Hcalls, Hunsent. reflexivity. }
  destruct (wait_error (wait_reply env)); cbn [fst snd trace]; [exact Hcalls4 |].
  match goal with
  | |- context [settle ?w] => destruct (settle_spec w _ eq_refl) as (Htrace & _)
  end.
  cbn [trace] in Htrace. rewrite Htrace. exact Hcalls4.
Qed.

Lemma prepare_open_fails env timeout_time last_exception w e :
  fst (_open env w) = Raises e ->
  prepare env timeout_time last_exception w = (Raises e, snd (_open env w)).
Proof.
  intros Hopen. unfold prepare. unfold bind at 1.
  destruct (_open env w) as [[[] | e'] w1]; cbn in *; congruence.
Qed.

Lemma open_link_calls env w :
  link_calls (trace (snd (_open env w))) = link_calls (trace w) /\
  timeout_logs (trace (snd (_open env w))) = timeout_logs (trace w) /\
  _unsent_events (self (snd (_open env w))) = _unsent_events (self w).
Proof.
  unfold _open, _create_handler, handler, bind, get, ret, raise, update, emit, modify.
  destruct w as [p t]. cbn.
  destruct (running p && bool_decide (_handler p <> None)); cbn; [auto |].
  destruct (open_reply env); cbn;
    unfold link_calls, timeout_logs; rewrite !List.filter_app; cbn;
    rewrite !app_nil_r; auto.
Qed.

(** X8: when the link open of an attempt raises, the attempt raises the same
    exception; the deadline is not looked at (even a deadline long past
    leaves no timeout), nothing is enqueued or waited for, and the unsent
    list is kept. *)
Theorem open_failure_ends_the_attempt :
  forall env timeout_time last_exception p e,
    let run := _send_event_data env timeout_time last_exception (fresh p) in
    _unsent_events p <> [] ->
    fst (_open env (fresh p)) = Raises e ->
    fst run = Raises e /\
    link_calls (trace (snd run)) = [] /\
    timeout_logs (trace (snd run)) = [] /\
    _unsent_events (self (snd run)) = _unsent_events p.
Proof.
  intros env timeout_time last_exception p e run Hunsent Hopen. subst run.
  rewrite send_event_data_stages. cbn [self fresh].
  destruct (_unsent_events p) as [| m l] eqn:Hu; [congruence |].
  rewrite (prepare_open_fails _ _ _ _ _ Hopen). cbn [fst snd].
  destruct (open_link_calls env (fresh p)) as (Hc & Hl & Hu').
  rewrite Hc, Hl, Hu'. cbn. rewrite Hu. auto.
Qed.

Lemma prepare_without_deadline_link env timeout_time last_exception p w3 :
  float_truthy timeout_time = false ->
  prepare env timeout_time last_exception (fresh p) = (Returns tt, w3) ->
  link_msg_timeout (self w3) = link_msg_timeout (self (snd (_open env (fresh p)))) /\
  timeout_logs (trace w3) = [].
Proof.
  intros Ht. unfold link_msg_timeout.
  run_prepare.
  all: try (intros [= <-]; cbn; split; reflexivity).
  all: try discriminate.
  all: intros _; absurd_path.
Qed.

(** X9: without a deadline ([None], or 0.0, which is false) an attempt that
    has something unsent and whose link open returns always enqueues and
    waits, however late the clock; it logs no timeout and leaves the link's
    message timeout as the open left it. *)
Theorem no_deadline_no_timeout :
  forall env timeout_time last_exception p,
    let run := _send_event_data env timeout_time last_exception (fresh p) in
    float_truthy timeout_time = false ->
    _unsent_events p <> [] ->
    fst (_open env (fresh p)) = Returns tt ->
    link_calls (trace (snd run)) = [QueueMessage (_unsent_events p); WaitAsync] /\
    timeout_logs (trace (snd run)) = [] /\
    link_msg_timeout (self (snd run))
      = link_msg_timeout (self (snd (_open env (fresh p)))).
Proof.
  intros env timeout_time last_exception p run Ht Hunsent Hopen.
  pose proof (prepare_without_deadline env timeout_time last_exception p Hopen Ht) as Hfst.
  subst run. rewrite send_event_data_stages. cbn [self fresh].
  destruct (_unsent_events p) as [| m l] eqn:Hu; [congruence |].
  destruct (prepare env timeout_time last_exception (fresh p)) as [r w3] eqn:Hprep.
  cbn [fst] in Hfst. subst r.
  pose proof (prepare_link_calls _ _ _ _ _ _ Hprep) as Hcalls. cbn in Hcalls.
  destruct (prepare_without_deadline_link _ _ _ _ _ Ht Hprep) as [Hmt Hlogs].
  destruct (prepare_spec _ _ _ _ _ _ Hprep) as (_ & _ & _ & _ & _ & h & Hh & _).
  rewrite (wait_async_spec _ _ _ Hh).
  assert (Hcalls4 : link_calls (trace w3 ++ [OnLink h; WaitAsync])
                    = [QueueMessage (m :: l); WaitAsync]).
  { rewrite link_calls_app, Hcalls, Hu. reflexivity. }
  assert (Hlogs4 : timeout_logs (trace w3 ++ [OnLink h; WaitAsync]) = []).
  { unfold timeout_logs in *. rewrite List.filter_app, Hlogs. reflexivity. }
  assert (Hmt4 : option_map _msg_timeout (Some h)
                 = link_msg_timeout (self (snd (_open env (fresh p))))).
  { rewrite <- Hmt. unfold link_msg_timeout. rewrite Hh. reflexivity. }
  destruct (wait_error (wait_reply env)); cbn [fst snd trace self].
  - repeat split; assumption.
  - match goal with
    | |- context [settle ?w] =>
        destruct (settle_spec w _ eq_refl) as (Htrace & _ & Hh' & _)
    end.
    cbn [trace] in Htrace. rewrite Htrace.
    repeat split; try assumption.
    unfold link_msg_timeout at 1. rewrite Hh'. exact Hmt4.
Qed.

(** ** The deadline check on its own *)

(** X10: [_set_msg_timeout] changes nothing but the message timeout of the
    link: every attribute of the producer other than the handle, and the
    handle up to its message timeout, are as before; it makes no call on the
    transport, and leaves no trace at all unless it raises. *)
Theorem set_msg_timeout_touches_only_the_link_timeout :
  forall time_time timeout_time last_exception w,
    let run := _set_msg_timeout time_time timeout_time last_exception w in
    set_handler None (self (snd run)) = set_handler None (self w) /\
    option_map (set_msg_timeout 0) (_handler (self (snd run)))
      = option_map (set_msg_timeout 0) (_handler (self w)) /\
    transport_events (trace (snd run)) = transport_events (trace w) /\
    (raised (fst run) = false -> trace (snd run) = trace w).
Proof.
  intros time_time timeout_time last_exception [p t].
  unfold _set_msg_timeout, handler, bind, get, ret, raise, update, emit, modify.
  cbn.
  destruct (negb (float_truthy timeout_time)); cbn; [auto |].
  destruct (Qle_bool (default 0%Q timeout_time - time_time) 0); cbn.
  - unfold transport_events. rewrite List.filter_app. cbn. rewrite app_nil_r.
    repeat split; discriminate.
  - destruct (_handler p) as [h |] eqn:Hh; cbn; rewrite ?Hh; auto.
Qed.

(** X11: for one deadline and one link, the budget never grows with the
    clock.  If the check raises at one time it raises at every later time;
    and when it still passes at the later time, it passes at the earlier one
    too, both budgets are positive, and the later one is at most the earlier
    one.  At the deadline itself the check raises: a budget of exactly zero
    is none. *)
Theorem remaining_budget_shrinks :
  forall (deadline t1 t2 : Q) last_exception w h,
    float_truthy (Some deadline) = true ->
    _handler (self w) = Some h ->
    (t1 <= t2)%Q ->
    let run1 := _set_msg_timeout t1 (Some deadline) last_exception w in
    let run2 := _set_msg_timeout t2 (Some deadline) last_exception w in
    (raised (fst run1) = true -> raised (fst run2) = true) /\
    (raised (fst run2) = false ->
       exists b1 b2,
         link_msg_timeout (self (snd run1)) = Some b1 /\
         link_msg_timeout (self (snd run2)) = Some b2 /\
         (0 < b2)%Q /\ (b2 <= b1)%Q) /\
    raised (fst (_set_msg_timeout deadline (Some deadline) last_exception w)) = true.
Proof.
  intros deadline t1 t2 last_exception [p t] h Ht Hh Hle.
  cbn [self] in Hh.
  unfold _set_msg_timeout, handler, bind, get, ret, raise, update, emit, modify,
    link_msg_timeout.
  rewrite Ht. cbn [negb].
  change (default 0%Q (Some deadline)) with deadline.
  assert (Hd : Qle_bool (deadline - deadline) 0 = true)
    by (apply Qle_bool_iff; lra).
  rewrite Hd.
  destruct (Qle_bool (deadline - t1) 0) eqn:H1;
    destruct (Qle_bool (deadline - t2) 0) eqn:H2; cbn; rewrite ?Hh; cbn.
  - repeat split; discriminate.
  - exfalso. apply Qle_bool_iff in H1.
    assert (Hn : ~ (deadline - t2 <= 0)%Q)
      by (intros Hc; apply Qle_bool_iff in Hc; congruence).
    apply Hn. lra.
  - repeat split; discriminate.
  - assert (Hn : ~ (deadline - t2 <= 0)%Q)
      by (intros Hc; apply Qle_bool_iff in Hc; congruence).
    repeat split; try discriminate.
    intros _. eexists; eexists. repeat split; try reflexivity; lra.
Qed.

(** ** Completion callbacks *)

(** X12: of the completion reports delivered to the producer, the last one
    decides: outcome and condition are those of the last report (an [Ok]
    after an [Error] leaves no condition behind), nothing else of the
    producer changes, and nothing is called. *)
Theorem last_callback_wins :
  forall cbs outcome condition w,
    let run := deliver (cbs ++ [(outcome, condition)]) w in
    fst run = Returns tt /\
    _outcome (self (snd run)) = Some outcome /\
    _condition (self (snd run)) = condition /\
    set_condition None (set_outcome None (self (snd run)))
      = set_condition None (set_outcome None (self w)) /\
    trace (snd run) = trace w.
Proof.
  intros cbs outcome condition w run. subst run. rewrite deliver_spec.
  cbn [fst snd self trace]. unfold recorded. rewrite fold_left_app. cbn.
  repeat split.
  generalize (self w). clear w.
  induction cbs as [| cb cbs IH]; intros p; cbn; [reflexivity |].
  specialize (IH (record p cb)). cbn in IH. exact IH.
Qed.

(** ** Wrapping *)

(** X13: [_wrap_eventdata] leaves the producer and the trace as they are,
    whether it returns or raises; and whatever it returns, for each of the
    three kinds of argument, carries the producer's completion callback on
    its message. *)
Theorem wrap_registers_the_callback :
  forall event_data span key w,
    let run := _wrap_eventdata event_data span key w in
    snd run = w /\
    forall x, fst run = Returns x ->
              on_send_complete (wrapped_message x) = Some (_name (self w)).
Proof.
  intros event_data span key w.
  unfold _wrap_eventdata, bind, get, ret, raise. cbn zeta.
  destruct event_data as [e | b | l].
  - cbn. split; [reflexivity |]. intros x [= <-]. reflexivity.
  - destruct (key_truthy key && key_neq key (EventDataBatch._partition_key b)); cbn.
    + split; [reflexivity | discriminate].
    + split; [reflexivity |]. intros x [= <-]. reflexivity.
  - match goal with
    | |- context [_from_batch ?a ?k] => destruct (_from_batch a k) as [batch | e]
    end; cbn.
    + split; [reflexivity |]. intros x [= <-]. reflexivity.
    + split; [reflexivity | discriminate].
Qed.

(** X14: only a batch is checked against the key.  A single event is
    wrapped for every key and never refused; an iterable is refused only
    with what the batch construction raises; and for a single event or a
    batch a false key ([None], the empty [str], the empty [bytes]) is the
    same as no key. *)
Theorem only_a_batch_is_checked_against_the_key :
  forall span key w,
    (forall e, raised (fst (_wrap_eventdata (AnEvent e) span key w)) = false) /\
    (forall l e, fst (_wrap_eventdata (Events l) span key w) = Raises e ->
                 exists l', _from_batch l' key = Raises e) /\
    (key_truthy key = false ->
       (forall e, _wrap_eventdata (AnEvent e) span key w
                  = _wrap_eventdata (AnEvent e) span None w) /\
       (forall b, _wrap_eventdata (ABatch b) span key w
                  = _wrap_eventdata (ABatch b) span None w)).
Proof.
  intros span key w.
  unfold _wrap_eventdata, bind, get, ret, raise.
  split; [| split].
  - intros e. reflexivity.
  - intros l e.
    match goal with
    | |- context [_from_batch ?a ?k] =>
        destruct (_from_batch a k) as [batch | e'] eqn:Hb
    end; cbn; [discriminate |].
    intros [= <-]. eexists. exact Hb.
  - intros Hfalse. split.
    + intros e. destruct key as [k |]; [| reflexivity]. rewrite Hfalse. reflexivity.
    + intros b. rewrite Hfalse. reflexivity.
Qed.

(** ** Sending *)

Lemma wrap_depends_on_the_name event_data span key w w' :
  _name (self w) = _name (self w') ->
  fst (_wrap_eventdata event_data span key w)
    = fst (_wrap_eventdata event_data span key w').
Proof.
  intros Hname. unfold _wrap_eventdata, bind, get, ret, raise.
  destruct event_data as [e | b | l].
  - cbn. rewrite Hname. reflexivity.
  - destruct (key_truthy key && key_neq key (EventDataBatch._partition_key b)); cbn;
      rewrite ?Hname; reflexivity.
  - match goal with
    | |- context [_from_batch ?a ?k] => destruct (_from_batch a k) as [batch | e]
    end; cbn; rewrite ?Hname; reflexivity.
Qed.

Lemma wrap_run event_data span key w :
  _wrap_eventdata event_data span key w
    = (fst (_wrap_eventdata event_data span key w), w).
Proof.
  unfold _wrap_eventdata, bind, get, ret, raise.
  destruct event_data as [e | b | l].
  - reflexivity.
  - destruct (key_truthy key && key_neq key (EventDataBatch._partition_key b));
      reflexivity.
  - match goal with
    | |- context [_from_batch ?a ?k] => destruct (_from_batch a k) as [batch | e]
    end; reflexivity.
Qed.

(** X15: [send] starts from its own message only.  On a producer that is
    not closed, and for an argument that wraps, whatever the producer has
    left unsent from an earlier call is dropped before anything is sent: the
    whole run, result, producer and trace, is the same as on the producer
    with nothing unsent. *)
Theorem send_drops_what_was_left_unsent :
  forall tracing env event_data key timeout p leftover,
    closed p = false ->
    raised (fst (_wrap_eventdata event_data (child_span tracing) key (fresh p))) = false ->
    send tracing env event_data key timeout (fresh (set_unsent_events leftover p))
      = send tracing env event_data key timeout (fresh (set_unsent_events [] p)).
Proof.
  intros tracing env event_data key timeout p leftover Hclosed Hwrap.
  set (child := child_span tracing) in *.
  destruct (fst (_wrap_eventdata event_data child key (fresh p))) as [x | e] eqn:Hx;
    [clear Hwrap | discriminate Hwrap].
  assert (Hrun : forall w, _name (self w) = _name p ->
                           _wrap_eventdata event_data child key w = (Returns x, w)).
  { intros w Hname. rewrite wrap_run.
    rewrite (wrap_depends_on_the_name _ _ _ w (fresh p)) by exact Hname.
    rewrite Hx. reflexivity. }
  unfold send, with_lock, finally, _check_closed.
  destruct tracing as [impl |]; subst child; cbn [child_span option_map] in Hrun;
    unfold bind, emit, modify, get, ret, raise, update; cbn;
    rewrite Hclosed; cbn;
    rewrite !Hrun by reflexivity; reflexivity.
Qed.

(** A [send] that passes the closed check and the wrapping: the retry
    executor runs on the producer with the wrapped message as its only
    unsent one, inside the span, inside the lock. *)
Lemma send_run tracing env event_data key timeout p x :
  closed p = false ->
  fst (_wrap_eventdata event_data (child_span tracing) key (fresh p)) = Returns x ->
  send tracing env event_data key timeout (fresh p) =
    let w0 := {| self := set_unsent_events [wrapped_message x] p;
                 trace := LockAcquire :: span_events tracing ++ span_entry tracing |} in
    let run := _send_event_data_with_retry env timeout w0 in
    (fst run,
     {| self := self (snd run);
        trace := trace (snd run) ++ span_exit tracing ++ [LockRelease] |}).
Proof.
  intros Hclosed Hx.
  assert (Hrun : forall w, _name (self w) = _name p ->
                           _wrap_eventdata event_data (child_span tracing) key w
                           = (Returns x, w)).
  { intros w Hname. rewrite wrap_run.
    rewrite (wrap_depends_on_the_name _ _ _ w (fresh p)) by exact Hname.
    rewrite Hx. reflexivity. }
  unfold send, with_lock, with_span, finally, _check_closed.
  destruct tracing as [impl |]; cbn [child_span option_map] in Hrun;
    unfold bind, emit, modify, get, ret, raise, update; cbn;
    rewrite Hclosed; cbn;
    rewrite !Hrun by reflexivity; cbn.
  - match goal with
    | |- context [_send_event_data_with_retry env timeout ?w] =>
        destruct (_send_event_data_with_retry env timeout w) as [r w1]
    end.
    cbn. rewrite <- app_assoc. reflexivity.
  - match goal with
    | |- context [_send_event_data_with_retry env timeout ?w] =>
        destruct (_send_event_data_with_retry env timeout w) as [r w1]
    end.
    reflexivity.
Qed.

(** A [send] that is refused, by the closed check or by the wrapping. *)
Lemma send_refused tracing env event_data key timeout p :
  closed p = true \/
  raised (fst (_wrap_eventdata event_data (child_span tracing) key (fresh p))) = true ->
  raised (fst (send tracing env event_data key timeout (fresh p))) = true /\
  snd (send tracing env event_data key timeout (fresh p))
    = {| self := p; trace := LockAcquire :: span_events tracing ++ [LockRelease] |}.
Proof.
  intros Hrefused.
  unfold send, with_lock, with_span, finally, _check_closed.
  destruct (closed p) eqn:Hclosed.
  - destruct tracing as [impl |];
      unfold bind, emit, modify, get, ret, raise, update; cbn;
      rewrite Hclosed; cbn; split; reflexivity.
  - destruct Hrefused as [Hc | Hwrap]; [discriminate |].
    destruct (fst (_wrap_eventdata event_data (child_span tracing) key (fresh p)))
      as [x | e] eqn:Hx; [discriminate |].
    assert (Hrun : forall w, _name (self w) = _name p ->
                             _wrap_eventdata event_data (child_span tracing) key w
                             = (Raises e, w)).
    { intros w Hname. rewrite wrap_run.
      rewrite (wrap_depends_on_the_name _ _ _ w (fresh p)) by exact Hname.
      rewrite Hx. reflexivity. }
    destruct tracing as [impl |]; cbn [child_span option_map] in Hrun;
      unfold bind, emit, modify, get, ret, raise, update; cbn;
      rewrite Hclosed; cbn;
      rewrite !Hrun by reflexivity; cbn; split; reflexivity.
Qed.

(** X18: what [send] adds to the retry executor.  On a producer that is not
    closed and for an argument that wraps, the executor is started on the
    producer with exactly one unsent message, the wrapped one, and with
    nothing handed to the transport yet; the result of [send] and the
    producer it leaves are the executor's. *)
Theorem send_hands_over_one_message :
  forall tracing env event_data key timeout p x,
    closed p = false ->
    fst (_wrap_eventdata event_data (child_span tracing) key (fresh p)) = Returns x ->
    exists w0,
      _unsent_events (self w0) = [wrapped_message x] /\
      on_send_complete (wrapped_message x) = Some (_name p) /\
      set_unsent_events [] (self w0) = set_unsent_events [] p /\
      transport_events (trace w0) = [] /\
      fst (send tracing env event_data key timeout (fresh p))
        = fst (_send_event_data_with_retry env timeout w0) /\
      self (snd (send tracing env event_data key timeout (fresh p)))
        = self (snd (_send_event_data_with_retry env timeout w0)).
Proof.
  intros tracing env event_data key timeout p x Hclosed Hx.
  rewrite (send_run _ _ _ _ _ _ _ Hclosed Hx). cbn zeta.
  exists {| self := set_unsent_events [wrapped_message x] p;
            trace := LockAcquire :: span_events tracing ++ span_entry tracing |}.
  split; [reflexivity |]. split.
  { unfold _wrap_eventdata, bind, get, ret, raise in Hx.
    destruct event_data as [e | b | l]; cbn in Hx.
    - injection Hx as <-. reflexivity.
    - destruct (key_truthy key && key_neq key (EventDataBatch._partition_key b));
        cbn in Hx; [discriminate |]. injection Hx as <-. reflexivity.
    - match type of Hx with
      | context [_from_batch ?a ?k] => destruct (_from_batch a k) as [batch | e]
      end; cbn in Hx; [| discriminate]. injection Hx as <-. reflexivity. }
  split; [reflexivity |].
  split; [destruct tracing; reflexivity |].
  split; reflexivity.
Qed.

(** X19: the span of a [send].  With a tracing implementation set, a [send]
    that reaches the retry executor leaves its span and then releases the
    lock, as the last two things it does, also when the executor raises; a
    [send] that is refused (the producer is closed, or the wrapping raises)
    has created the span and never entered it, and has done nothing else. *)
Theorem span_is_left_when_entered :
  forall impl env event_data key timeout p,
    let tracing := Some impl in
    let child := {| span_name := "Azure.EventHubs.send"; span_kind := "CLIENT" |} in
    let run := send tracing env event_data key timeout (fresh p) in
    (closed p = false ->
     raised (fst (_wrap_eventdata event_data (child_span tracing) key (fresh p))) = false ->
     exists t, trace (snd run) = t ++ [SpanExit child; LockRelease]) /\
    (closed p = true \/
     raised (fst (_wrap_eventdata event_data (child_span tracing) key (fresh p))) = true ->
     raised (fst run) = true /\
     snd run = {| self := p; trace := [LockAcquire; SpanCreate child; LockRelease] |}).
Proof.
  intros impl env event_data key timeout p tracing child run. split.
  - intros Hclosed Hwrap.
    destruct (fst (_wrap_eventdata event_data (child_span tracing) key (fresh p)))
      as [x | e] eqn:Hx; [| discriminate].
    subst run. rewrite (send_run _ _ _ _ _ _ _ Hclosed Hx). cbn.
    eexists. reflexivity.
  - intros Hrefused. subst run.
    destruct (send_refused tracing env event_data key timeout p Hrefused) as [Hr Hs].
    split; [exact Hr | exact Hs].
Qed.

Lemma with_lock_last {A} (body : M World A) w :
  last (trace (snd (with_lock body w))) = Some LockRelease.
Proof.
  unfold with_lock, finally, bind, emit, modify. cbn.
  destruct (body _) as [r w']. cbn. apply last_snoc.
Qed.

(** X16: the lock is released on every way out of [send] and of [close]:
    whatever the argument, the state of the producer, the answers of the
    world and the retry executor do, and also when the call raises, the last
    thing the call does is to release the lock. *)
Theorem lock_is_always_released :
  forall tracing env event_data key timeout w,
    last (trace (snd (send tracing env event_data key timeout w))) = Some LockRelease /\
    last (trace (snd (close w))) = Some LockRelease.
Proof.
  intros. split; apply with_lock_last.
Qed.

(** ** Construction *)

Lemma py_int_bounds q :
  (0 <= q)%Q ->
  (inject_Z (py_int q) <= q)%Q /\ (q < inject_Z (py_int q) + 1)%Q.
Proof.
  destruct q as [n d]. unfold py_int, Qle, Qlt. cbn.
  intros Hn. rewrite Z.mul_1_r in Hn.
  rewrite Z.quot_div_nonneg by lia.
  pose proof (Z.mul_div_le n (Z.pos d) ltac:(lia)).
  pose proof (Z.mul_succ_div_gt n (Z.pos d) ltac:(lia)).
  split; nia.
Qed.

(** X17: the link a newly constructed producer creates.  Its message timeout
    is the send timeout (60 seconds unless given) in milliseconds, fraction
    included; the timeout among its link properties is that value cut to
    whole milliseconds, so for a send timeout that is not negative it is at
    most the message timeout and less than one millisecond below it; the
    link starts with nothing pending; and its idle timeout is never zero (an
    idle timeout of zero, like a missing one, gives the link none). *)
Theorem link_timeouts_of_a_new_producer :
  forall client target kwargs uuid4 auth,
    let p := __init__ client target kwargs uuid4 in
    let send_timeout := default 60%Q (kw_send_timeout kwargs) in
    exists h,
      _handler (self (snd (_create_handler auth (fresh p)))) = Some h /\
      _msg_timeout h = (send_timeout * 1000)%Q /\
      link_properties h = py_int (_msg_timeout h) /\
      pending_messages h = [] /\
      ((0 <= send_timeout)%Q ->
       (inject_Z (link_properties h) <= _msg_timeout h)%Q /\
       (_msg_timeout h < inject_Z (link_properties h) + 1)%Q) /\
      (forall t, idle_timeout h = Some t -> ~ (t == 0)%Q).
Proof.
  intros client target kwargs uuid4 auth p send_timeout.
  eexists. split; [reflexivity |]. cbn.
  repeat split.
  - apply py_int_bounds. subst send_timeout. lra.
  - apply py_int_bounds. subst send_timeout. lra.
  - intros t. destruct (kw_idle_timeout kwargs) as [q |]; cbn; [| discriminate].
    destruct (Qeq_bool q 0) eqn:Hq; cbn; [discriminate |].
    intros [= <-] Hzero.
    assert (Hq0 : (q == 0)%Q) by lra.
    apply Qeq_bool_iff in Hq0. congruence.
Qed.

End producer_properties.


(** * Concrete runs *)

Import producer_async.

(** C2, as the description states it, fails: the link reports a failed
    delivery without a condition, and the attempt returns normally with the
    outcome [Error] recorded; no generic send failure is raised. *)
Lemma non_ok_without_condition_returns :
  let run := _send_event_data (sample_env 0 failed_without_condition) None None
               (fresh loaded_producer) in
  fst run = Returns tt /\
  _outcome (self (snd run)) = Some Error /\
  _condition (self (snd run)) = None /\
  ~ raises_on_every_non_ok (sample_env 0 failed_without_condition) None None
      loaded_producer.
Proof.
  cbn zeta. repeat split; try (vm_compute; reflexivity).
  intros Hclaim. unfold raises_on_every_non_ok in Hclaim.
  destruct Hclaim as [_ Hother].
  - vm_compute. auto 10.
  - reflexivity.
  - vm_compute. discriminate.
  - assert (Hnt : _outcome (recorded (outcomes (wait_reply (sample_env 0 failed_without_condition)))
                              loaded_producer) <> Some Timeout)
      by (vm_compute; discriminate).
    specialize (Hother Hnt). vm_compute in Hother. discriminate.
Qed.

Lemma non_ok_outcome_after_flush_witness :
  let env := sample_env 0 failed_and_pending in
  let run := _send_event_data env None None (fresh loaded_producer) in
  let after_wait := recorded (outcomes (wait_reply env)) loaded_producer in
  In WaitAsync (trace (snd run)) /\
  wait_error (wait_reply env) = None /\
  _outcome after_wait <> Some Ok /\
  (_outcome after_wait = Some Timeout -> fst run = Raises timed_out) /\
  (_outcome after_wait <> Some Timeout ->
     fst run = match _condition after_wait with
               | Some condition => Raises condition
               | None => Returns tt
               end).
Proof.
  cbn zeta.
  assert (Hin : In WaitAsync
                  (trace (snd (_send_event_data (sample_env 0 failed_and_pending) None None
                                 (fresh loaded_producer)))))
    by (vm_compute; auto 10).
  assert (Hwait : wait_error (wait_reply (sample_env 0 failed_and_pending)) = None)
    by reflexivity.
  assert (Hnok : _outcome (recorded (outcomes (wait_reply (sample_env 0 failed_and_pending)))
                             loaded_producer) <> Some Ok)
    by (vm_compute; discriminate).
  exact (conj Hin (conj Hwait (conj Hnok
           (non_ok_outcome_after_flush (sample_env 0 failed_and_pending) None None
              loaded_producer Hin Hwait Hnok)))).
Defined.

(** C4, as the description states it, fails twice.  Past the deadline with a
    last observed error, the attempt raises that error as it is, which is no
    timeout error; and before the deadline, with 60 seconds left, the link's
    message timeout is set to 60000, not to 60. *)
Lemma deadline_not_as_described :
  fst (_send_event_data (sample_env 160 acknowledged) (Some 100%Q) (Some connection_lost)
         (fresh loaded_producer)) = Raises connection_lost /\
  is_timeout_error connection_lost = false /\
  ~ deadline_as_described (sample_env 160 acknowledged) (Some 100%Q) (Some connection_lost)
      loaded_producer /\
  link_msg_timeout
    (self (snd (_send_event_data (sample_env 40 acknowledged) (Some 100%Q) None
                  (fresh loaded_producer)))) = Some (60000 # 1)%Q /\
  ~ deadline_as_described (sample_env 40 acknowledged) (Some 100%Q) None loaded_producer.
Proof.
  repeat split; try (vm_compute; reflexivity).
  - intros Hclaim. unfold deadline_as_described in Hclaim.
    destruct Hclaim as [Hpast _];
      [reflexivity | discriminate | vm_compute; reflexivity |].
    destruct (Hpast eq_refl) as ((e & He & Htimeout) & _).
    vm_compute in He. injection He as <-. discriminate Htimeout.
  - intros Hclaim. unfold deadline_as_described in Hclaim.
    destruct Hclaim as [_ Hbefore];
      [reflexivity | discriminate | vm_compute; reflexivity |].
    destruct (Hbefore eq_refl) as (t & Ht & Heq).
    vm_compute in Ht. injection Ht as <-.
    vm_compute in Heq. discriminate Heq.
Qed.

Lemma deadline_check_witness :
  let env := sample_env 95 acknowledged in
  let run := _send_event_data env (Some 100%Q) None (fresh loaded_producer) in
  let budget := ((default 0 (Some 100%Q) - now env) * 1000)%Q in
  float_truthy (Some 100%Q) = true /\
  _unsent_events loaded_producer <> [] /\
  fst (_open env (fresh loaded_producer)) = Returns tt /\
  (expired env (Some 100%Q) = true ->
     fst run = Raises (default timed_out None) /\
     queued (trace (snd run)) = [] /\
     ~ In WaitAsync (trace (snd run)) /\
     _unsent_events (self (snd run)) = _unsent_events loaded_producer) /\
  (expired env (Some 100%Q) = false ->
     queued (trace (snd run)) = [_unsent_events loaded_producer] /\
     In WaitAsync (trace (snd run)) /\
     (exists h1 h2,
        calls_on_link (trace (snd run))
          = [OnLink h1; QueueMessage (_unsent_events loaded_producer); OnLink h2; WaitAsync] /\
        _msg_timeout h1 = budget /\
        _msg_timeout h2 = budget) /\
     link_msg_timeout (self (snd run)) = Some budget).
Proof.
  cbn zeta.
  assert (Ht : float_truthy (Some 100%Q) = true) by reflexivity.
  assert (Hunsent : _unsent_events loaded_producer <> []) by discriminate.
  assert (Hopen : fst (_open (sample_env 95 acknowledged) (fresh loaded_producer)) = Returns tt)
    by (vm_compute; reflexivity).
  exact (conj Ht (conj Hunsent (conj Hopen
           (deadline_check (sample_env 95 acknowledged) (Some 100%Q) None loaded_producer
              Ht Hunsent Hopen)))).
Defined.

(** C5, as the description states it, fails: the link acknowledges the one
    queued message and holds nothing pending, and the flush wait then ends
    with an exception; the unsent list stays the queued message, and the
    next attempt hands it to the link again. *)
Lemma unsent_list_is_not_always_the_pending_list :
  let run := _send_event_data (sample_env 0 acknowledged_then_lost) None None
               (fresh loaded_producer) in
  let retry := _send_event_data (sample_env 1 acknowledged) None None
                 (fresh (self (snd run))) in
  In WaitAsync (trace (snd run)) /\
  fst run = Raises connection_lost /\
  _unsent_events (self (snd run)) = [plain_message "m1"] /\
  link_pending (self (snd run)) = Some [] /\
  queued (trace (snd retry)) = [[plain_message "m1"]] /\
  ~ resent_as_described (sample_env 0 acknowledged_then_lost) None None loaded_producer.
Proof.
  cbn zeta.
  assert (Hin : In WaitAsync
                  (trace (snd (_send_event_data (sample_env 0 acknowledged_then_lost) None
                                 None (fresh loaded_producer)))))
    by (vm_compute; auto 10).
  repeat split; try exact Hin; try (vm_compute; reflexivity).
  intros Hclaim. destruct (Hclaim Hin) as [Hpending _].
  vm_compute in Hpending. discriminate Hpending.
Qed.

Lemma unsent_list_after_the_flush_wait_witness :
  let env := sample_env 0 failed_and_pending in
  let run := _send_event_data env None None (fresh loaded_producer) in
  let p' := self (snd run) in
  In WaitAsync (trace (snd run)) /\
  link_pending p' = Some (still_pending (wait_reply env)) /\
  (wait_error (wait_reply env) = None ->
   _unsent_events p' = still_pending (wait_reply env)) /\
  (wait_error (wait_reply env) <> None ->
   _unsent_events p' = _unsent_events loaded_producer) /\
  forall env' timeout_time' last_exception',
    let retry := _send_event_data env' timeout_time' last_exception' (fresh p') in
    (queued (trace (snd retry)) = [] \/
     queued (trace (snd retry)) = [_unsent_events p']) /\
    (_unsent_events p' <> [] ->
     fst (_open env' (fresh p')) = Returns tt ->
     (float_truthy timeout_time' = true -> expired env' timeout_time' = false) ->
     queued (trace (snd retry)) = [_unsent_events p']).
Proof.
  cbn zeta.
  assert (Hin : In WaitAsync
                  (trace (snd (_send_event_data (sample_env 0 failed_and_pending) None None
                                 (fresh loaded_producer)))))
    by (vm_compute; auto 10).
  exact (conj Hin
           (unsent_list_after_the_flush_wait (sample_env 0 failed_and_pending) None None
              loaded_producer Hin)).
Defined.

Lemma send_rejects_conflicting_key_witness :
  let run := @send plain_helpers single_attempt None (fun _ => sample_env 0 acknowledged)
               (ABatch batch_A) (Some (KStr "B")) None (fresh sample_producer) in
  EventDataBatch._partition_key batch_A = Some (KStr "A") /\
  key_truthy (Some (KStr "B")) = true /\
  KStr "B" <> KStr "A" /\
  raised (fst run) = true /\
  transport_events (trace (snd run)) = [] /\
  queued (trace (snd run)) = [] /\
  self (snd run) = sample_producer /\
  (closed sample_producer = false -> fst run = Raises key_mismatch).
Proof.
  cbn zeta.
  assert (Hbound : EventDataBatch._partition_key batch_A = Some (KStr "A")) by reflexivity.
  assert (Htruthy : key_truthy (Some (KStr "B")) = true) by reflexivity.
  assert (Hne : KStr "B" <> KStr "A") by discriminate.
  exact (conj Hbound (conj Htruthy (conj Hne
           (@send_rejects_conflicting_key plain_helpers single_attempt None
              (fun _ => sample_env 0 acknowledged) batch_A (KStr "A") (KStr "B") None
              sample_producer Hbound Htruthy Hne)))).
Defined.

Lemma truthy_key_conflicts_witness :
  let run := @send plain_helpers single_attempt None (fun _ => sample_env 0 acknowledged)
               (ABatch unbound_batch) (Some (KStr "K")) None (fresh sample_producer) in
  EventDataBatch._partition_key unbound_batch = None /\
  key_truthy (Some (KStr "K")) = true /\
  raised (fst run) = true /\
  transport_events (trace (snd run)) = [] /\
  queued (trace (snd run)) = [] /\
  self (snd run) = sample_producer /\
  (closed sample_producer = false -> fst run = Raises key_mismatch).
Proof.
  cbn zeta.
  assert (Hunbound : EventDataBatch._partition_key unbound_batch = None) by reflexivity.
  assert (Htruthy : key_truthy (Some (KStr "K")) = true) by reflexivity.
  exact (conj Hunbound (conj Htruthy
           (proj1 (@truthy_key_conflicts_and_empty_key_is_ignored plain_helpers single_attempt
                     None (fun _ => sample_env 0 acknowledged) None sample_producer)
                  unbound_batch (KStr "K") Hunbound Htruthy))).
Defined.

(** ** Concrete runs of the further properties *)

Lemma ok_outcome_returns_witness :
  let env := sample_env 0 acknowledged in
  let run := _send_event_data env None None (fresh loaded_producer) in
  In WaitAsync (trace (snd run)) /\
  wait_error (wait_reply env) = None /\
  _outcome (recorded (outcomes (wait_reply env)) loaded_producer) = Some Ok /\
  fst run = Returns tt.
Proof.
  cbn zeta.
  assert (Hin : In WaitAsync
                  (trace (snd (_send_event_data (sample_env 0 acknowledged) None None
                                 (fresh loaded_producer)))))
    by (vm_compute; auto 10).
  assert (Hwait : wait_error (wait_reply (sample_env 0 acknowledged)) = None)
    by reflexivity.
  assert (Hok : _outcome (recorded (outcomes (wait_reply (sample_env 0 acknowledged)))
                            loaded_producer) = Some Ok)
    by reflexivity.
  exact (conj Hin (conj Hwait (conj Hok
           (proj1 (ok_outcome_returns (sample_env 0 acknowledged) None None
                     loaded_producer Hin Hwait Hok))))).
Defined.

Lemma wait_failure_keeps_the_unsent_list_witness :
  let env := sample_env 0 acknowledged_then_lost in
  let run := _send_event_data env None None (fresh loaded_producer) in
  In WaitAsync (trace (snd run)) /\
  wait_error (wait_reply env) = Some connection_lost /\
  fst run = Raises connection_lost /\
  _unsent_events (self (snd run)) = _unsent_events loaded_producer.
Proof.
  cbn zeta.
  assert (Hin : In WaitAsync
                  (trace (snd (_send_event_data (sample_env 0 acknowledged_then_lost) None
                                 None (fresh loaded_producer)))))
    by (vm_compute; auto 10).
  assert (Hwait : wait_error (wait_reply (sample_env 0 acknowledged_then_lost))
                  = Some connection_lost)
    by reflexivity.
  pose proof (wait_failure_keeps_the_unsent_list (sample_env 0 acknowledged_then_lost)
                None None loaded_producer connection_lost Hin Hwait) as Hthm.
  exact (conj Hin (conj Hwait (conj (proj1 Hthm) (proj1 (proj2 Hthm))))).
Defined.

Lemma nothing_pending_nothing_retried_witness :
  let env := sample_env 0 failed_and_settled in
  let run := _send_event_data env None None (fresh loaded_producer) in
  In WaitAsync (trace (snd run)) /\
  wait_error (wait_reply env) = None /\
  still_pending (wait_reply env) = [] /\
  fst run = Raises connection_lost /\
  _send_event_data (sample_env 1 acknowledged) (Some 100%Q) (Some connection_lost)
    (fresh (self (snd run)))
  = (Returns tt, fresh (self (snd run))).
Proof.
  cbn zeta.
  assert (Hin : In WaitAsync
                  (trace (snd (_send_event_data (sample_env 0 failed_and_settled) None None
                                 (fresh loaded_producer)))))
    by (vm_compute; auto 10).
  assert (Hwait : wait_error (wait_reply (sample_env 0 failed_and_settled)) = None)
    by reflexivity.
  assert (Hnone : still_pending (wait_reply (sample_env 0 failed_and_settled)) = [])
    by reflexivity.
  assert (Hraised : fst (_send_event_data (sample_env 0 failed_and_settled) None None
                           (fresh loaded_producer)) = Raises connection_lost)
    by (vm_compute; reflexivity).
  exact (conj Hin (conj Hwait (conj Hnone (conj Hraised
           (nothing_pending_nothing_retried (sample_env 0 failed_and_settled) None None
              loaded_producer Hin Hwait Hnone
              (sample_env 1 acknowledged) (Some 100%Q) (Some connection_lost)))))).
Defined.

Lemma open_failure_ends_the_attempt_witness :
  let run := _send_event_data (unreachable_env 200) (Some 100%Q) None
               (fresh loaded_producer) in
  _unsent_events loaded_producer <> [] /\
  fst (_open (unreachable_env 200) (fresh loaded_producer)) = Raises connection_lost /\
  fst run = Raises connection_lost /\
  link_calls (trace (snd run)) = [] /\
  timeout_logs (trace (snd run)) = [] /\
  _unsent_events (self (snd run)) = _unsent_events loaded_producer.
Proof.
  cbn zeta.
  assert (Hunsent : _unsent_events loaded_producer <> []) by discriminate.
  assert (Hopen : fst (_open (unreachable_env 200) (fresh loaded_producer))
                  = Raises connection_lost)
    by (vm_compute; reflexivity).
  exact (conj Hunsent (conj Hopen
           (open_failure_ends_the_attempt (unreachable_env 200) (Some 100%Q) None
              loaded_producer connection_lost Hunsent Hopen))).
Defined.

Lemma no_deadline_no_timeout_witness :
  let env := sample_env 1000000 acknowledged in
  let run := _send_event_data env (Some 0%Q) None (fresh loaded_producer) in
  float_truthy (Some 0%Q) = false /\
  _unsent_events loaded_producer <> [] /\
  fst (_open env (fresh loaded_producer)) = Returns tt /\
  link_calls (trace (snd run))
    = [QueueMessage (_unsent_events loaded_producer); WaitAsync] /\
  timeout_logs (trace (snd run)) = [] /\
  link_msg_timeout (self (snd run))
    = link_msg_timeout (self (snd (_open env (fresh loaded_producer)))).
Proof.
  cbn zeta.
  assert (Ht : float_truthy (Some 0%Q) = false) by reflexivity.
  assert (Hunsent : _unsent_events loaded_producer <> []) by discriminate.
  assert (Hopen : fst (_open (sample_env 1000000 acknowledged) (fresh loaded_producer))
                  = Returns tt)
    by (vm_compute; reflexivity).
  exact (conj Ht (conj Hunsent (conj Hopen
           (no_deadline_no_timeout (sample_env 1000000 acknowledged) (Some 0%Q) None
              loaded_producer Ht Hunsent Hopen)))).
Defined.

Lemma remaining_budget_shrinks_witness :
  let w := snd (_create_handler "token" (fresh loaded_producer)) in
  let h := new_handler loaded_producer "token" in
  float_truthy (Some 100%Q) = true /\
  _handler (self w) = Some h /\
  (40 <= 70)%Q /\
  (raised (fst (_set_msg_timeout 70 (Some 100%Q) None w)) = false ->
   exists b1 b2,
     link_msg_timeout (self (snd (_set_msg_timeout 40 (Some 100%Q) None w))) = Some b1 /\
     link_msg_timeout (self (snd (_set_msg_timeout 70 (Some 100%Q) None w))) = Some b2 /\
     (0 < b2)%Q /\ (b2 <= b1)%Q).
Proof.
  cbn zeta.
  assert (Ht : float_truthy (Some 100%Q) = true) by reflexivity.
  assert (Hh : _handler (self (snd (_create_handler "token" (fresh loaded_producer))))
               = Some (new_handler loaded_producer "token"))
    by reflexivity.
  assert (Hle : (40 <= 70)%Q) by (unfold Qle; cbn; lia).
  exact (conj Ht (conj Hh (conj Hle
           (proj1 (proj2 (remaining_budget_shrinks 100 40 70 None
                            (snd (_create_handler "token" (fresh loaded_producer)))
                            (new_handler loaded_producer "token") Ht Hh Hle)))))).
Defined.

Lemma send_drops_what_was_left_unsent_witness :
  closed sample_producer = false /\
  raised (fst (@_wrap_eventdata plain_helpers (AnEvent event_100_42) (child_span None) None
                 (fresh sample_producer))) = false /\
  @send plain_helpers single_attempt None (fun _ => sample_env 0 acknowledged)
    (AnEvent event_100_42) None None
    (fresh (set_unsent_events [plain_message "old"] sample_producer))
  = @send plain_helpers single_attempt None (fun _ => sample_env 0 acknowledged)
      (AnEvent event_100_42) None None
      (fresh (set_unsent_events [] sample_producer)).
Proof.
  assert (Hclosed : closed sample_producer = false) by reflexivity.
  assert (Hwrap : raised (fst (@_wrap_eventdata plain_helpers (AnEvent event_100_42)
                                 (child_span None) None (fresh sample_producer))) = false)
    by reflexivity.
  exact (conj Hclosed (conj Hwrap
           (@send_drops_what_was_left_unsent plain_helpers single_attempt None
              (fun _ => sample_env 0 acknowledged) (AnEvent event_100_42) None None
              sample_producer [plain_message "old"] Hclosed Hwrap))).
Defined.

Lemma send_hands_over_one_message_witness :
  let x := register_callback (_name sample_producer) (WrappedEvent event_100_42) in
  closed sample_producer = false /\
  fst (@_wrap_eventdata plain_helpers (AnEvent event_100_42) (child_span None) None
         (fresh sample_producer)) = Returns x /\
  exists w0,
    _unsent_events (self w0) = [wrapped_message x] /\
    on_send_complete (wrapped_message x) = Some (_name sample_producer) /\
    set_unsent_events [] (self w0) = set_unsent_events [] sample_producer /\
    transport_events (trace w0) = [] /\
    fst (@send plain_helpers single_attempt None (fun _ => sample_env 0 acknowledged)
           (AnEvent event_100_42) None None (fresh sample_producer))
      = fst (@_send_event_data_with_retry single_attempt
               (fun _ => sample_env 0 acknowledged) None w0) /\
    self (snd (@send plain_helpers single_attempt None (fun _ => sample_env 0 acknowledged)
                 (AnEvent event_100_42) None None (fresh sample_producer)))
      = self (snd (@_send_event_data_with_retry single_attempt
                     (fun _ => sample_env 0 acknowledged) None w0)).
Proof.
  cbn zeta.
  assert (Hclosed : closed sample_producer = false) by reflexivity.
  assert (Hx : fst (@_wrap_eventdata plain_helpers (AnEvent event_100_42) (child_span None)
                      None (fresh sample_producer))
               = Returns (register_callback (_name sample_producer)
                            (WrappedEvent event_100_42)))
    by reflexivity.
  exact (conj Hclosed (conj Hx
           (@send_hands_over_one_message plain_helpers single_attempt None
              (fun _ => sample_env 0 acknowledged) (AnEvent event_100_42) None None
              sample_producer _ Hclosed Hx))).
Defined.
